(** * generate-test-dump: a shallow embedding of scripts/generate-test-dump.py

    The script synthesises a mysqldump-style text file from a fixed schema
    catalogue.  Python values are modelled as follows:
      - [str] as [string] (the script only handles ASCII text);
      - [int] as [Z]; [//] is [Z.div] (both floor for a positive divisor);
      - the hidden global generator of the [random] module as an explicit
        entropy tape threaded through a state monad;
      - the open file [f] as the text written so far, [f.write] appending. *)

From Stdlib Require Import ZArith NArith List Bool Lia.
From Stdlib Require Import Strings.String Strings.Ascii.
From Stdlib Require Import Numbers.DecimalString Numbers.DecimalPos.
From Stdlib Require Import QArith.QArith QArith.Qround.
Import ListNotations.

Local Open Scope string_scope.
Local Open Scope Z_scope.

(** ** Python string primitives used by the script *)

Module PyStr.

(** Characters that cannot be typed inside a string literal here. *)
Definition LF : ascii := ascii_of_nat 10.
Definition CR : ascii := ascii_of_nat 13.
Definition TAB : ascii := ascii_of_nat 9.
Definition DQ : ascii := ascii_of_nat 34.
Definition SQ : ascii := "'"%char.
Definition BS : ascii := "\"%char.

Definition nl : string := String LF "".
Definition dq : string := String DQ "".

Definition len (s : string) : Z := Z.of_nat (String.length s).

(** [sub in s] *)
Fixpoint contains (sub s : string) : bool :=
  String.prefix sub s ||
  match s with
  | "" => false
  | String _ r => contains sub r
  end.

Fixpoint drop (n : nat) (s : string) : string :=
  match n, s with
  | O, _ => s
  | S k, "" => ""
  | S k, String _ r => drop k r
  end.

(** [s[:n]] for a non-negative bound *)
Fixpoint take (n : nat) (s : string) : string :=
  match n, s with
  | O, _ => ""
  | S k, "" => ""
  | S k, String c r => String c (take k r)
  end.

(** [s.endswith(suffix)] *)
Definition endswith (s suffix : string) : bool :=
  (String.length suffix <=? String.length s)%nat &&
  String.eqb (drop (String.length s - String.length suffix) s) suffix.

(** Text is modelled as a sequence of 8-bit characters.  The case mappings,
    the letter classes and the digit class below are those of Python on ASCII
    text; on other text Python also maps letters such as the accented ones and
    counts the decimal digits of other scripts.  A statement whose truth
    depends on how a column name or a type string is lower-cased or searched
    for digits therefore takes these strings to be ASCII text ([ascii_text]). *)
Definition is_ascii_char (c : ascii) : bool := (nat_of_ascii c <? 128)%nat.

Definition is_upper (c : ascii) : bool :=
  let n := nat_of_ascii c in ((65 <=? n) && (n <=? 90))%nat.
Definition is_lower (c : ascii) : bool :=
  let n := nat_of_ascii c in ((97 <=? n) && (n <=? 122))%nat.
Definition is_digit (c : ascii) : bool :=
  let n := nat_of_ascii c in ((48 <=? n) && (n <=? 57))%nat.
Definition is_cased (c : ascii) : bool := is_upper c || is_lower c.

Definition lower_char (c : ascii) : ascii :=
  if is_upper c then ascii_of_nat (nat_of_ascii c + 32) else c.
Definition upper_char (c : ascii) : ascii :=
  if is_lower c then ascii_of_nat (nat_of_ascii c - 32) else c.

Fixpoint map_chars (f : ascii -> ascii) (s : string) : string :=
  match s with
  | "" => ""
  | String c r => String (f c) (map_chars f r)
  end.

(** [s.lower()], [s.upper()], on ASCII text *)
Definition lower : string -> string := map_chars lower_char.
Definition upper : string -> string := map_chars upper_char.

(** [s.capitalize()]: first character upper-cased, the rest lower-cased *)
Definition capitalize (s : string) : string :=
  match s with
  | "" => ""
  | String c r => String (upper_char c) (lower r)
  end.

(** [s.title()]: a cased character is upper-cased when the character
    before it is uncased (or absent) and lower-cased otherwise *)
Fixpoint title_from (prev_cased : bool) (s : string) : string :=
  match s with
  | "" => ""
  | String c r =>
      if is_cased c
      then String (if prev_cased then lower_char c else upper_char c)
                  (title_from true r)
      else String c (title_from false r)
  end.
Definition title : string -> string := title_from false.

(** [s.replace(old, new)] for a non-empty [old]: occurrences are found
    left to right and do not overlap.  [skip] counts the characters of a
    matched occurrence that are still to be passed over. *)
Fixpoint replace_from (old new : string) (skip : nat) (s : string) : string :=
  match s with
  | "" => ""
  | String c r =>
      match skip with
      | S k => replace_from old new k r
      | O =>
          if String.prefix old s
          then new ++ replace_from old new (String.length old - 1) r
          else String c (replace_from old new 0 r)
      end
  end.
Definition replace (old new s : string) : string := replace_from old new 0 s.

(** [s.split(sep)] for a non-empty [sep]; the result is never empty *)
Fixpoint split_from (sep : string) (skip : nat) (s : string) : list string :=
  match s with
  | "" => [""]
  | String c r =>
      match skip with
      | S k => split_from sep k r
      | O =>
          if String.prefix sep s
          then "" :: split_from sep (String.length sep - 1) r
          else match split_from sep 0 r with
               | x :: xs => String c x :: xs
               | [] => [String c ""]
               end
      end
  end.
Definition split (s sep : string) : list string := split_from sep 0 s.

Fixpoint mem_char (c : ascii) (chars : string) : bool :=
  match chars with
  | "" => false
  | String d r => Ascii.eqb c d || mem_char c r
  end.

Fixpoint lstrip (chars s : string) : string :=
  match s with
  | "" => ""
  | String c r => if mem_char c chars then lstrip chars r else s
  end.

Fixpoint rstrip (chars s : string) : string :=
  match s with
  | "" => ""
  | String c r =>
      match rstrip chars r with
      | "" => if mem_char c chars then "" else String c ""
      | r' => String c r'
      end
  end.

(** [s.strip(chars)] *)
Definition strip (s chars : string) : string := rstrip chars (lstrip chars s).

(** [sep.join(parts)] *)
Definition join (sep : string) (parts : list string) : string :=
  String.concat sep parts.

(** The longest prefix of [s] made of characters in the class [cls], and
    what follows it. *)
Fixpoint span (cls : ascii -> bool) (s : string) : string * string :=
  match s with
  | "" => ("", "")
  | String c r =>
      if cls c then let (a, b) := span cls r in (String c a, b)
      else ("", s)
  end.

(** The three regular expressions of the script all have the shape
    [lit ( cls+ ) \)] with one capture group around [cls+] and a class that
    excludes the closing parenthesis, so a match at a position exists exactly
    when the longest run of class characters after [lit] is non-empty and is
    followed by the parenthesis.  [re_match_at] is the match attempt at the
    start of [s]; [re_search] is [re.search] (leftmost match), returning
    [match.group(1)].  With [is_digit] for the class the pattern is [\d+] as
    it matches on ASCII text. *)
Definition re_match_at (lit : string) (cls : ascii -> bool) (s : string)
  : option string :=
  if String.prefix lit s then
    match span cls (drop (String.length lit) s) with
    | (String c g, String d _) =>
        if Ascii.eqb d ")" then Some (String c g) else None
    | _ => None
    end
  else None.

Fixpoint re_search (lit : string) (cls : ascii -> bool) (s : string)
  : option string :=
  match re_match_at lit cls s with
  | Some g => Some g
  | None =>
      match s with
      | "" => None
      | String _ r => re_search lit cls r
      end
  end.

Definition not_rparen (c : ascii) : bool := negb (Ascii.eqb c ")").

(** Every character of [s] is an ASCII character. *)
Fixpoint ascii_text (s : string) : bool :=
  match s with
  | "" => true
  | String c r => is_ascii_char c && ascii_text r
  end.

(** [int(s)] on a string of decimal digits *)
Fixpoint int_from (acc : Z) (s : string) : Z :=
  match s with
  | "" => acc
  | String c r => int_from (10 * acc + (Z.of_nat (nat_of_ascii c) - 48)) r
  end.
Definition int_of_str : string -> Z := int_from 0.

(** [str(n)] for an integer *)
Definition str_of_int (n : Z) : string := NilZero.string_of_int (Z.to_int n).

(** A number printed in at least [w] digits, zero-padded on the left
    (the [%m], [%d], [%H] ... fields of [strftime]). *)
Definition zero_pad (w : nat) (n : Z) : string :=
  let s := str_of_int n in
  String.concat "" (repeat "0" (w - String.length s)) ++ s.

End PyStr.
Import PyStr.

(** ** The [random] module and the wall clock

    [random] draws from a process-wide generator that the script never seeds.
    The generator is modelled as an entropy tape: an arbitrary infinite
    sequence of raw draws and a cursor.  Every primitive consumes raw draws
    and maps them into its documented range, so a statement quantified over
    all tapes covers every outcome the library may produce. *)

Module Random.

Record rng := mk_rng { tape : nat -> N; cursor : nat }.

Definition M (A : Type) : Type := rng -> A * rng.

Definition ret {A} (x : A) : M A := fun g => (x, g).
Definition bind {A B} (m : M A) (k : A -> M B) : M B :=
  fun g => let (x, g') := m g in k x g'.

Definition next_raw : M N :=
  fun g => (tape g (cursor g), mk_rng (tape g) (S (cursor g))).

(** [random.random()] returns a float [k / 2^53] with [0 <= k < 2^53];
    the model returns the numerator [k]. *)
Definition unit_denominator : N := 2 ^ 53.
Definition random : M N :=
  bind next_raw (fun r => ret (r mod unit_denominator)%N).

(** [x < 0.1] for [x = k / 2^53].  The double nearest to one tenth lies
    strictly between [900719925474099 / 2^53] and [900719925474100 / 2^53],
    as does the rational 1/10, so the float comparison is [10 * k < 2^53]. *)
Definition lt_one_tenth (k : N) : bool := (10 * k <? unit_denominator)%N.

(** [floor(random() * n)], the index computation of [random.choices] *)
Definition scaled_index (n : nat) : M nat :=
  bind random (fun k => ret (N.to_nat (k * N.of_nat n / unit_denominator))).

(** an integer in [0, n) for [n > 0] *)
Definition randbelow (n : Z) : M Z :=
  bind next_raw (fun r => ret (Z.of_N r mod n)).

(** [random.randint(a, b)]: an integer [N] with [a <= N <= b] *)
Definition randint (a b : Z) : M Z :=
  bind (randbelow (b - a + 1)) (fun k => ret (a + k)).

(** [random.choice(seq)] for a non-empty [seq] *)
Definition choice (seq : list string) : M string :=
  bind (randbelow (Z.of_nat (List.length seq)))
       (fun i => ret (nth (Z.to_nat i) seq "")).

(** [random.choices(population, k=k)] *)
Fixpoint choices (population : list string) (k : nat) : M (list string) :=
  match k with
  | O => ret []
  | S k' =>
      bind (scaled_index (List.length population)) (fun i =>
      bind (choices population k') (fun rest =>
      ret (nth i population "" :: rest)))
  end.

(** [round(random.uniform(1.0, 999.99), 2)].  [uniform(a, b)] is
    [a + (b - a) * random()]; the rounded result is a whole number of
    hundredths, which is what the model returns:
    [round(100 + 99899 * k / 2^53)] in exact arithmetic (the float
    computation may land one hundredth away at a rounding tie; nothing below
    depends on which hundredth is drawn). *)
Definition uniform_hundredths : M Z :=
  bind random (fun k =>
    ret ((2 * (100 * Z.of_N unit_denominator + 99899 * Z.of_N k)
          + Z.of_N unit_denominator) / (2 * Z.of_N unit_denominator))).

End Random.
Import Random.

Notation "x <- m ;; k" := (bind m (fun x => k))
  (at level 61, m at next level, right associativity).

(** The wall clock read by [datetime.now()]: whole days elapsed since
    2020-01-01 00:00:00 (the [delta.days] of [random_datetime]) and the
    seconds elapsed in the current day.  The script is run after 2020. *)
Record clock := mk_clock { now_days : nat; now_seconds : Z }.

Definition is_leap (y : Z) : bool :=
  (y mod 4 =? 0) && (negb (y mod 100 =? 0) || (y mod 400 =? 0)).

Definition days_in_month (y m : Z) : Z :=
  if m =? 2 then (if is_leap y then 29 else 28)
  else if (m =? 4) || (m =? 6) || (m =? 9) || (m =? 11) then 30
  else 31.

Definition next_day (d : Z * Z * Z) : Z * Z * Z :=
  let '(y, m, dd) := d in
  if dd <? days_in_month y m then (y, m, dd + 1)
  else if m <? 12 then (y, m + 1, 1)
  else (y + 1, 1, 1).

(** [datetime(start_year, 1, 1) + timedelta(days=n)] *)
Definition date_after (start_year : Z) (n : nat) : Z * Z * Z :=
  Nat.iter n next_day (start_year, 1, 1).

(** [strftime('%Y-%m-%d %H:%M:%S')] of a date and a second of the day *)
Definition strftime (d : Z * Z * Z) (secs : Z) : string :=
  let '(y, m, dd) := d in
  zero_pad 4 y ++ "-" ++ zero_pad 2 m ++ "-" ++ zero_pad 2 dd ++ " " ++
  zero_pad 2 (secs / 3600) ++ ":" ++ zero_pad 2 (secs / 60 mod 60) ++ ":" ++
  zero_pad 2 (secs mod 60).

(** ** The schema catalogue *)

Record table_def := mk_table {
  name : string;
  columns : list (string * string);
  primary_key : string;
  insert_batch_size : Z
}.

Definition TABLE_DEFINITIONS : list table_def := [
  mk_table "users" [
    ("id", "bigint unsigned NOT NULL AUTO_INCREMENT");
    ("email", "varchar(255) NOT NULL");
    ("name", "varchar(100) DEFAULT NULL");
    ("password_hash", "varchar(255) NOT NULL");
    ("avatar_url", "varchar(500) DEFAULT NULL");
    ("bio", "text");
    ("created_at", "datetime DEFAULT NULL");
    ("updated_at", "datetime DEFAULT NULL")
  ] "id" 50;
  mk_table "posts" [
    ("id", "bigint unsigned NOT NULL AUTO_INCREMENT");
    ("user_id", "bigint unsigned NOT NULL");
    ("title", "varchar(255) NOT NULL");
    ("slug", "varchar(300) NOT NULL");
    ("content", "longtext");
    ("excerpt", "text");
    ("status", "enum('draft','published','archived') DEFAULT 'draft'");
    ("published_at", "datetime DEFAULT NULL");
    ("created_at", "datetime DEFAULT NULL");
    ("updated_at", "datetime DEFAULT NULL")
  ] "id" 20;
  mk_table "comments" [
    ("id", "bigint unsigned NOT NULL AUTO_INCREMENT");
    ("post_id", "bigint unsigned NOT NULL");
    ("user_id", "bigint unsigned DEFAULT NULL");
    ("parent_id", "bigint unsigned DEFAULT NULL");
    ("body", "text NOT NULL");
    ("author_name", "varchar(100) DEFAULT NULL");
    ("author_email", "varchar(255) DEFAULT NULL");
    ("is_approved", "tinyint(1) DEFAULT '0'");
    ("created_at", "datetime DEFAULT NULL")
  ] "id" 100;
  mk_table "products" [
    ("id", "bigint unsigned NOT NULL AUTO_INCREMENT");
    ("sku", "varchar(50) NOT NULL");
    ("name", "varchar(255) NOT NULL");
    ("description", "text");
    ("price", "decimal(10,2) NOT NULL");
    ("cost", "decimal(10,2) DEFAULT NULL");
    ("quantity", "int DEFAULT '0'");
    ("weight", "decimal(8,3) DEFAULT NULL");
    ("is_active", "tinyint(1) DEFAULT '1'");
    ("metadata", "json DEFAULT NULL");
    ("created_at", "datetime DEFAULT NULL");
    ("updated_at", "datetime DEFAULT NULL")
  ] "id" 30;
  mk_table "orders" [
    ("id", "bigint unsigned NOT NULL AUTO_INCREMENT");
    ("user_id", "bigint unsigned NOT NULL");
    ("order_number", "varchar(50) NOT NULL");
    ("status", "enum('pending','processing','shipped','delivered','cancelled') DEFAULT 'pending'");
    ("subtotal", "decimal(12,2) NOT NULL");
    ("tax", "decimal(10,2) DEFAULT '0.00'");
    ("shipping", "decimal(10,2) DEFAULT '0.00'");
    ("total", "decimal(12,2) NOT NULL");
    ("currency", "char(3) DEFAULT 'USD'");
    ("notes", "text");
    ("shipped_at", "datetime DEFAULT NULL");
    ("created_at", "datetime DEFAULT NULL");
    ("updated_at", "datetime DEFAULT NULL")
  ] "id" 40;
  mk_table "order_items" [
    ("id", "bigint unsigned NOT NULL AUTO_INCREMENT");
    ("order_id", "bigint unsigned NOT NULL");
    ("product_id", "bigint unsigned NOT NULL");
    ("quantity", "int NOT NULL");
    ("unit_price", "decimal(10,2) NOT NULL");
    ("total_price", "decimal(12,2) NOT NULL");
    ("created_at", "datetime DEFAULT NULL")
  ] "id" 100;
  mk_table "sessions" [
    ("id", "varchar(255) NOT NULL");
    ("user_id", "bigint unsigned DEFAULT NULL");
    ("ip_address", "varchar(45) DEFAULT NULL");
    ("user_agent", "text");
    ("payload", "longtext NOT NULL");
    ("last_activity", "int NOT NULL")
  ] "id" 50;
  mk_table "activity_logs" [
    ("id", "bigint unsigned NOT NULL AUTO_INCREMENT");
    ("log_name", "varchar(100) DEFAULT NULL");
    ("description", "text NOT NULL");
    ("subject_type", "varchar(255) DEFAULT NULL");
    ("subject_id", "bigint unsigned DEFAULT NULL");
    ("causer_type", "varchar(255) DEFAULT NULL");
    ("causer_id", "bigint unsigned DEFAULT NULL");
    ("properties", "json DEFAULT NULL");
    ("created_at", "datetime DEFAULT NULL")
  ] "id" 80;
  mk_table "cache" [
    ("key", "varchar(255) NOT NULL");
    ("value", "mediumtext NOT NULL");
    ("expiration", "int NOT NULL")
  ] "key" 100;
  mk_table "media" [
    ("id", "bigint unsigned NOT NULL AUTO_INCREMENT");
    ("model_type", "varchar(255) NOT NULL");
    ("model_id", "bigint unsigned NOT NULL");
    ("collection_name", "varchar(255) NOT NULL");
    ("name", "varchar(255) NOT NULL");
    ("file_name", "varchar(255) NOT NULL");
    ("mime_type", "varchar(100) DEFAULT NULL");
    ("disk", "varchar(50) DEFAULT 'public'");
    ("size", "bigint unsigned DEFAULT NULL");
    ("manipulations", "json DEFAULT NULL");
    ("custom_properties", "json DEFAULT NULL");
    ("responsive_images", "json DEFAULT NULL");
    ("created_at", "datetime DEFAULT NULL");
    ("updated_at", "datetime DEFAULT NULL")
  ] "id" 30
].

(** ** Sample data *)

Definition FIRST_NAMES : list string :=
  ["James"; "Mary"; "John"; "Patricia"; "Robert"; "Jennifer"; "Michael";
   "Linda"; "William"; "Elizabeth"; "David"; "Barbara"; "Richard"; "Susan";
   "Joseph"; "Jessica"; "Thomas"; "Sarah"; "Charles"; "Karen"].
Definition LAST_NAMES : list string :=
  ["Smith"; "Johnson"; "Williams"; "Brown"; "Jones"; "Garcia"; "Miller";
   "Davis"; "Rodriguez"; "Martinez"; "Hernandez"; "Lopez"; "Gonzalez";
   "Wilson"; "Anderson"; "Thomas"; "Taylor"; "Moore"; "Jackson"; "Martin"].
Definition WORDS : list string :=
  ["lorem"; "ipsum"; "dolor"; "sit"; "amet"; "consectetur"; "adipiscing";
   "elit"; "sed"; "do"; "eiusmod"; "tempor"; "incididunt"; "ut"; "labore";
   "et"; "dolore"; "magna"; "aliqua"; "enim"; "ad"; "minim"; "veniam"].
Definition DOMAINS : list string :=
  ["gmail.com"; "yahoo.com"; "hotmail.com"; "outlook.com"; "example.com";
   "test.org"; "company.io"].

(** [string.ascii_lowercase], as the sequence of its one-character strings *)
Fixpoint chars (s : string) : list string :=
  match s with
  | "" => []
  | String c r => String c "" :: chars r
  end.
Definition ascii_lowercase : list string := chars "abcdefghijklmnopqrstuvwxyz".

(** ** Values and the sample generators *)

(** What [generate_row_value] may return: [None], an [int], a [float]
    (always a two-decimal rounding, kept as its number of hundredths) or a
    [str]. *)
Inductive value :=
| VNone
| VInt (n : Z)
| VFloat (hundredths : Z)
| VStr (s : string).

Definition random_string (length : Z) : M string :=
  cs <- choices ascii_lowercase (Z.to_nat length) ;;
  ret (join "" cs).

Definition random_email : M string :=
  first <- choice FIRST_NAMES ;;
  last <- choice LAST_NAMES ;;
  n <- randint 1 999 ;;
  let name := lower first ++ "." ++ lower last ++ str_of_int n in
  domain <- choice DOMAINS ;;
  ret (name ++ "@" ++ domain).

Definition random_name : M string :=
  first <- choice FIRST_NAMES ;;
  last <- choice LAST_NAMES ;;
  ret (first ++ " " ++ last).

Definition random_text (min_words max_words : Z) : M string :=
  count <- randint min_words max_words ;;
  ws <- choices WORDS (Z.to_nat count) ;;
  ret (capitalize (join " " ws) ++ ".").

Definition random_datetime (now : clock) : M string :=
  let start_year := 2020 in
  random_days <- randint 0 (Z.of_nat (now_days now)) ;;
  ret (strftime (date_after start_year (Z.to_nat random_days)) 0).

Definition random_ip : M string :=
  a <- randint 1 255 ;;
  b <- randint 0 255 ;;
  c <- randint 0 255 ;;
  d <- randint 1 254 ;;
  ret (str_of_int a ++ "." ++ str_of_int b ++ "." ++ str_of_int c ++ "."
       ++ str_of_int d).

(** [str(x)] of a float with at most two decimals: the shortest decimal
    that reads back as [x], which keeps at least one digit after the point *)
Definition str_of_float (hundredths : Z) : string :=
  let whole := hundredths / 100 in
  let frac := hundredths mod 100 in
  str_of_int whole ++ "." ++
  (if frac mod 10 =? 0 then str_of_int (frac / 10) else zero_pad 2 frac).

(** [str(v)] *)
Definition str_of_value (v : value) : string :=
  match v with
  | VNone => "None"
  | VInt n => str_of_int n
  | VFloat h => str_of_float h
  | VStr s => s
  end.

Definition escape_sql (s : value) : string :=
  match s with
  | VNone => "NULL"
  | _ =>
      let s := str_of_value s in
      replace (String CR "") "\r"
        (replace (String LF "") "\n"
           (replace "'" "\'"
              (replace "\" "\\" s)))
  end.

(** ** The value synthesiser *)

(** The rules that follow the enum rule; the enum rule falls through to
    them when its type string has no parenthesised value list. *)
Definition text_and_char_rules (col_lower type_lower : string) : M value :=
  (* Text columns (long content) *)
  if contains "longtext" type_lower then
    s <- random_text 100 500 ;; ret (VStr s)
  else if contains "mediumtext" type_lower then
    s <- random_text 50 200 ;; ret (VStr s)
  else if contains "text" type_lower then
    s <- random_text 20 100 ;; ret (VStr s)
  (* VARCHAR columns *)
  else if contains "varchar" type_lower then
    let max_len :=
      match re_search "varchar(" is_digit type_lower with
      | Some d => int_of_str d
      | None => 100
      end in
    if String.eqb col_lower "title" || String.eqb col_lower "slug" then
      k <- randint 3 8 ;;
      ws <- choices WORDS (Z.to_nat k) ;;
      ret (VStr (take (Z.to_nat max_len) (title (join " " ws))))
    else if String.eqb col_lower "sku" then
      s <- random_string 6 ;;
      n <- randint 1000 9999 ;;
      ret (VStr ("SKU-" ++ upper s ++ "-" ++ str_of_int n))
    else if String.eqb col_lower "order_number" then
      n <- randint 100000 999999 ;;
      ret (VStr ("ORD-" ++ str_of_int n))
    else if String.eqb col_lower "password_hash" then
      s <- random_string 50 ;;
      ret (VStr ("$2y$10$" ++ s))
    else if String.eqb col_lower "user_agent" then
      n <- randint 1 10 ;;
      ret (VStr ("Mozilla/5.0 (compatible; Bot/" ++ str_of_int n ++ ".0)"))
    else
      k <- randint 10 50 ;;
      s <- random_string (Z.min max_len k) ;;
      ret (VStr s)
  (* CHAR columns *)
  else if contains "char" type_lower then
    let length :=
      match re_search "char(" is_digit type_lower with
      | Some d => int_of_str d
      | None => 3
      end in
    s <- random_string length ;;
    ret (VStr (upper s))
  else
    s <- random_string 20 ;; ret (VStr s).

(** The values of an enum type: the text between [enum(] and the first
    closing parenthesis, cut at the commas, each piece stripped of
    surrounding quote characters. *)
Definition enum_values (group : string) : list string :=
  map (fun v => strip v ("'" ++ dq)) (split group ",").

(** The rules of [generate_row_value] below the null rule, in order *)
Definition name_and_type_rules (now : clock)
    (col_name col_type : string) (row_id : Z) : M value :=
  let col_lower := lower col_name in
  let type_lower := lower col_type in
  (* ID columns *)
  if String.eqb col_name "id" && contains "auto_increment" type_lower then
    ret (VInt row_id)
  (* Foreign keys and references *)
  else if endswith col_name "_id" then
    n <- randint 1 (Z.max 1 (row_id / 2)) ;; ret (VInt n)
  (* Email *)
  else if contains "email" col_lower then
    s <- random_email ;; ret (VStr s)
  (* Name columns *)
  else if String.eqb col_lower "name" || String.eqb col_lower "author_name" then
    s <- random_name ;; ret (VStr s)
  else if String.eqb col_lower "first_name" then
    s <- choice FIRST_NAMES ;; ret (VStr s)
  else if String.eqb col_lower "last_name" then
    s <- choice LAST_NAMES ;; ret (VStr s)
  (* URL columns *)
  else if contains "url" col_lower then
    s <- random_string 10 ;; ret (VStr ("https://example.com/" ++ s))
  (* IP address *)
  else if contains "ip" col_lower then
    s <- random_ip ;; ret (VStr s)
  (* Datetime columns *)
  else if contains "datetime" type_lower || endswith col_lower "_at" then
    s <- random_datetime now ;; ret (VStr s)
  (* Boolean/tinyint *)
  else if contains "tinyint" type_lower then
    n <- randint 0 1 ;; ret (VInt n)
  (* JSON columns *)
  else if contains "json" type_lower then
    n <- randint 1 100 ;;
    ret (VStr ("{" ++ dq ++ "key" ++ dq ++ ": " ++ dq ++ "value" ++ dq ++ ", "
               ++ dq ++ "count" ++ dq ++ ": " ++ str_of_int n ++ "}"))
  (* Decimal/price columns *)
  else if contains "decimal" type_lower then
    h <- uniform_hundredths ;; ret (VFloat h)
  (* Integer columns *)
  else if contains "int" type_lower && negb (contains "bigint" type_lower) then
    n <- randint 1 10000 ;; ret (VInt n)
  else if contains "bigint" type_lower then
    n <- randint 1 1000000 ;; ret (VInt n)
  (* Enum columns *)
  else if contains "enum" type_lower then
    match re_search "enum(" not_rparen type_lower with
    | Some group => s <- choice (enum_values group) ;; ret (VStr s)
    | None => text_and_char_rules col_lower type_lower
    end
  else text_and_char_rules col_lower type_lower.

Definition generate_row_value (now : clock)
    (table_name col_name col_type : string) (row_id : Z) : M value :=
  (* Handle NULLable columns randomly; [and] draws only for such columns *)
  null_draw <-
    (if contains "DEFAULT NULL" col_type
     then k <- random ;; ret (lt_one_tenth k)
     else ret false) ;;
  if null_draw then ret VNone
  else name_and_type_rules now col_name col_type row_id.

(** ** The dump writer *)

(** [f.write(s)] on the text written so far *)
Definition fwrite (f s : string) : string := f ++ s.

(** A text given line by line, every line terminated by a newline *)
Definition lines (ls : list string) : string :=
  String.concat "" (map (fun l => l ++ nl) ls).

Definition write_header (f : string) : string :=
  fwrite f (lines [
    "-- MySQL dump 10.13  Distrib 8.0.40, for Linux (x86_64)";
    "--";
    "-- Host: localhost    Database: benchmark";
    "-- ------------------------------------------------------";
    "-- Server version" ++ String TAB "8.0.40";
    "";
    "/*!40101 SET @OLD_CHARACTER_SET_CLIENT=@@CHARACTER_SET_CLIENT */;";
    "/*!40101 SET @OLD_CHARACTER_SET_RESULTS=@@CHARACTER_SET_RESULTS */;";
    "/*!40101 SET @OLD_COLLATION_CONNECTION=@@COLLATION_CONNECTION */;";
    "/*!50503 SET NAMES utf8mb4 */;";
    "/*!40103 SET @OLD_TIME_ZONE=@@TIME_ZONE */;";
    "/*!40103 SET TIME_ZONE='+00:00' */;";
    "/*!40014 SET @OLD_UNIQUE_CHECKS=@@UNIQUE_CHECKS, UNIQUE_CHECKS=0 */;";
    "/*!40014 SET @OLD_FOREIGN_KEY_CHECKS=@@FOREIGN_KEY_CHECKS, FOREIGN_KEY_CHECKS=0 */;";
    "/*!40101 SET @OLD_SQL_MODE=@@SQL_MODE, SQL_MODE='NO_AUTO_VALUE_ON_ZERO' */;";
    "/*!40111 SET @OLD_SQL_NOTES=@@SQL_NOTES, SQL_NOTES=0 */;";
    ""
  ]).

Definition write_footer (now : clock) (f : string) : string :=
  fwrite f (lines [
    "";
    "/*!40103 SET TIME_ZONE=@OLD_TIME_ZONE */;";
    "/*!40014 SET FOREIGN_KEY_CHECKS=@OLD_FOREIGN_KEY_CHECKS */;";
    "/*!40014 SET UNIQUE_CHECKS=@OLD_UNIQUE_CHECKS */;";
    "/*!40101 SET CHARACTER_SET_CLIENT=@OLD_CHARACTER_SET_CLIENT */;";
    "/*!40101 SET CHARACTER_SET_RESULTS=@OLD_CHARACTER_SET_RESULTS */;";
    "/*!40101 SET COLLATION_CONNECTION=@OLD_COLLATION_CONNECTION */;";
    "/*!40111 SET SQL_NOTES=@OLD_SQL_NOTES */;";
    "";
    "-- Dump completed on "
      ++ strftime (date_after 2020 (now_days now)) (now_seconds now)
  ]).

(** The text of one schema block: the three [f.write] calls of
    [write_table_structure], in order. *)
Definition table_structure (table_def : table_def) : string :=
  let name := name table_def in
  let columns := columns table_def in
  let pk := primary_key table_def in
  let col_defs :=
    List.app (map (fun c => "  `" ++ fst c ++ "` " ++ snd c) columns)
             ["  PRIMARY KEY (`" ++ pk ++ "`)"] in
  lines [
    "--";
    "-- Table structure for table `" ++ name ++ "`";
    "--";
    "";
    "DROP TABLE IF EXISTS `" ++ name ++ "`;";
    "/*!40101 SET @saved_cs_client     = @@character_set_client */;";
    "/*!50503 SET character_set_client = utf8mb4 */;";
    "CREATE TABLE `" ++ name ++ "` ("
  ]
  ++ join ("," ++ nl) col_defs
  ++ lines [""; ") ENGINE=InnoDB DEFAULT CHARSET=utf8mb4 COLLATE=utf8mb4_unicode_ci;"]
  ++ lines ["/*!40101 SET character_set_client = @saved_cs_client */;"; ""].

Definition write_table_structure (f : string) (table_def : table_def) : string :=
  fwrite f (table_structure table_def).

(** A row is the list of values synthesised for the columns, in order. *)
Definition row := list value.

(** How [write_table_data] renders one value of a row *)
Definition render_value (val : value) : string :=
  match val with
  | VNone => "NULL"
  | VInt _ | VFloat _ => str_of_value val
  | VStr _ => "'" ++ escape_sql val ++ "'"
  end.

Definition render_row (values : row) : string :=
  "(" ++ join "," (map render_value values) ++ ")".

(** [for col_name, col_type in columns: val = generate_row_value(...)] *)
Fixpoint row_values (now : clock) (name : string)
    (columns : list (string * string)) (row_id : Z) : M row :=
  match columns with
  | [] => ret []
  | (col_name, col_type) :: rest =>
      val <- generate_row_value now name col_name col_type row_id ;;
      vals <- row_values now name rest row_id ;;
      ret (val :: vals)
  end.

(** [for i in range(current_batch)], from index [i] with [count] rounds left *)
Fixpoint batch_rows (now : clock) (table_def : table_def)
    (rows_written i : Z) (count : nat) : M (list row) :=
  match count with
  | O => ret []
  | S count' =>
      let row_id := rows_written + i + 1 in
      values <- row_values now (name table_def) (columns table_def) row_id ;;
      rest <- batch_rows now table_def rows_written (i + 1) count' ;;
      ret (values :: rest)
  end.

(** The [while rows_written < num_rows] loop.  Each round synthesises the
    rows of one INSERT statement; the result lists the rounds in order.  The
    loop need not terminate (a batch size below one never advances
    [rows_written]), so the model counts rounds against [fuel] and answers
    [None] when the fuel runs out before the loop condition fails. *)
Fixpoint insert_loop (fuel : nat) (now : clock) (table_def : table_def)
    (num_rows rows_written : Z) : M (option (list (list row))) :=
  if rows_written <? num_rows then
    match fuel with
    | O => ret None
    | S fuel' =>
        let batch_size := insert_batch_size table_def in
        let remaining := num_rows - rows_written in
        let current_batch := Z.min batch_size remaining in
        rows <- batch_rows now table_def rows_written 0 (Z.to_nat current_batch) ;;
        later <- insert_loop fuel' now table_def num_rows
                   (rows_written + current_batch) ;;
        ret (option_map (cons rows) later)
    end
  else ret (Some []).

(** The three [f.write] calls of one round of the loop *)
Definition insert_statement (table_def : table_def) (rows : list row) : string :=
  let col_names := map fst (columns table_def) in
  "INSERT INTO `" ++ name table_def ++ "` (`" ++ join "`,`" col_names
    ++ "`) VALUES" ++ nl
  ++ join ("," ++ nl) (map render_row rows)
  ++ ";" ++ nl.

Definition data_prologue (table_def : table_def) : string :=
  let name := name table_def in
  lines [
    "--";
    "-- Dumping data for table `" ++ name ++ "`";
    "--";
    "";
    "LOCK TABLES `" ++ name ++ "` WRITE;";
    "/*!40000 ALTER TABLE `" ++ name ++ "` DISABLE KEYS */;"
  ].

Definition data_epilogue (table_def : table_def) : string :=
  lines ["/*!40000 ALTER TABLE `" ++ name table_def ++ "` ENABLE KEYS */;"]
  ++ lines ["UNLOCK TABLES;"; ""].

(** The batches of rows that [write_table_data] emits for a table *)
Definition table_batches (fuel : nat) (now : clock) (table_def : table_def)
    (num_rows : Z) : M (option (list (list row))) :=
  insert_loop fuel now table_def num_rows 0.

(** [write_table_data(f, table_def, num_rows)]: the file after the call.
    Writing does not influence what is synthesised, so the text is the
    prologue, the INSERT statements of the rounds in order, and the epilogue.
    (The optional progress callback observes [rows_written] only.) *)
Definition write_table_data (fuel : nat) (now : clock) (f : string)
    (table_def : table_def) (num_rows : Z) : M (option string) :=
  batches <- table_batches fuel now table_def num_rows ;;
  ret (option_map
         (fun bs =>
            fwrite (fold_left (fun f rows => fwrite f (insert_statement table_def rows))
                              bs
                              (fwrite f (data_prologue table_def)))
                   (data_epilogue table_def))
         batches).

(** ** The size controller and the driver *)

(** Estimate: about 750 bytes per row on average *)
Definition rows_per_table (target_bytes : Z) : Z :=
  Z.max 100 ((target_bytes / Z.of_nat (List.length TABLE_DEFINITIONS)) / 750).

(** [for table_def in TABLE_DEFINITIONS: write_table_data(f, table_def, n)] *)
Fixpoint write_all_data (fuel : nat) (now : clock) (tables : list table_def)
    (num_rows : Z) (f : string) : M (option string) :=
  match tables with
  | [] => ret (Some f)
  | table_def :: rest =>
      r <- write_table_data fuel now f table_def num_rows ;;
      match r with
      | Some f' => write_all_data fuel now rest num_rows f'
      | None => ret None
      end
  end.

(** [generate_dump]: the content of the output file, freshly opened *)
Definition generate_dump (fuel : nat) (now : clock) (target_size_mb : Z)
    : M (option string) :=
  let target_bytes := target_size_mb * 1024 * 1024 in
  let rows_per_table := rows_per_table target_bytes in
  let f := write_header "" in
  let f := fold_left write_table_structure TABLE_DEFINITIONS f in
  r <- write_all_data fuel now TABLE_DEFINITIONS rows_per_table f ;;
  ret (option_map (write_footer now) r).

(** ** Specification vocabulary *)

(** [always P m]: whatever the generator state, the result of [m] satisfies [P]. *)
Definition always {A} (P : A -> Prop) (m : M A) : Prop :=
  forall g, P (fst (m g)).

(** Every character of [s] satisfies [p]. *)
Fixpoint all_chars (p : ascii -> bool) (s : string) : bool :=
  match s with
  | "" => true
  | String c r => p c && all_chars p r
  end.

(** The escape sequence that stands for one character of the input *)
Definition escape_char (c : ascii) : string :=
  if Ascii.eqb c BS then "\\"
  else if Ascii.eqb c SQ then "\'"
  else if Ascii.eqb c LF then "\n"
  else if Ascii.eqb c CR then "\r"
  else String c "".

Fixpoint escape_chars (s : string) : string :=
  match s with
  | "" => ""
  | String c r => escape_char c ++ escape_chars r
  end.

(** [s.replace(a, new)] for a one-character [a], character by character *)
Fixpoint subst_char (a : ascii) (new s : string) : string :=
  match s with
  | "" => ""
  | String c r => (if Ascii.eqb c a then new else String c "") ++ subst_char a new r
  end.

(** A text is well escaped when, read from the left, it consists of plain
    characters (no backslash, quote, newline or carriage return) and of
    two-character escape sequences: a backslash followed by a backslash, a
    quote, [n] or [r]. *)
Fixpoint well_escaped (s : string) : bool :=
  match s with
  | "" => true
  | String c r =>
      if Ascii.eqb c BS then
        match r with
        | "" => false
        | String d r' =>
            (Ascii.eqb d BS || Ascii.eqb d SQ || Ascii.eqb d "n" || Ascii.eqb d "r")
            && well_escaped r'
        end
      else negb (Ascii.eqb c SQ || Ascii.eqb c LF || Ascii.eqb c CR)
           && well_escaped r
  end.

Definition raw_line_break (c : ascii) : bool := Ascii.eqb c LF || Ascii.eqb c CR.

(** The sizes of the batches for [n] rows at batch size [b]: full batches,
    then the remainder when there is one. *)
Definition batch_sizes (b n : Z) : list nat :=
  (repeat (Z.to_nat b) (Z.to_nat (n / b))
   ++ (if n mod b =? 0 then [] else [Z.to_nat (n mod b)]))%list.

(** [P] holds of every row together with its sequence number, the first
    row of the list having number [start]. *)
Fixpoint Forall_from (P : Z -> row -> Prop) (start : Z) (rows : list row) : Prop :=
  match rows with
  | [] => True
  | r :: rs => P start r /\ Forall_from P (start + 1) rs
  end.

(** The null rule fires: the type allows null and the draw is below 10%. *)
Definition null_rule_fires (col_type : string) (g : rng) : bool :=
  contains "DEFAULT NULL" col_type && lt_one_tenth (fst (random g)).

(** The schema section of a dump: the schema blocks of all tables *)
Definition schema_blocks : string :=
  String.concat "" (map table_structure TABLE_DEFINITIONS).

(** A tape that repeats one raw draw *)
Definition const_tape (r : N) : rng := mk_rng (fun _ => r) 0.

(** No rule placed between the null rule and the enum rule claims the
    column: each of their conditions, in the order of the source, is false. *)
Definition reaches_enum_rule (col_name col_type : string) : bool :=
  let col_lower := lower col_name in
  let type_lower := lower col_type in
  negb (String.eqb col_name "id" && contains "auto_increment" type_lower)
  && negb (endswith col_name "_id")
  && negb (contains "email" col_lower)
  && negb (String.eqb col_lower "name" || String.eqb col_lower "author_name")
  && negb (String.eqb col_lower "first_name")
  && negb (String.eqb col_lower "last_name")
  && negb (contains "url" col_lower)
  && negb (contains "ip" col_lower)
  && negb (contains "datetime" type_lower || endswith col_lower "_at")
  && negb (contains "tinyint" type_lower)
  && negb (contains "json" type_lower)
  && negb (contains "decimal" type_lower)
  && negb (contains "int" type_lower && negb (contains "bigint" type_lower))
  && negb (contains "bigint" type_lower).

(** Nor does the enum rule or one of the three text rules: the column
    reaches the VARCHAR and CHAR rules. *)
Definition reaches_char_rules (col_name col_type : string) : bool :=
  let type_lower := lower col_type in
  reaches_enum_rule col_name col_type
  && negb (contains "enum" type_lower
           && match re_search "enum(" not_rparen type_lower with
              | Some _ => true
              | None => false
              end)
  && negb (contains "longtext" type_lower)
  && negb (contains "mediumtext" type_lower)
  && negb (contains "text" type_lower).

(** The column names that the VARCHAR rule formats specially *)
Definition special_name (col_lower : string) : bool :=
  String.eqb col_lower "title" || String.eqb col_lower "slug"
  || String.eqb col_lower "sku" || String.eqb col_lower "order_number"
  || String.eqb col_lower "password_hash" || String.eqb col_lower "user_agent".

(** An enum literal as it is written in a type string, and the literals
    that the parsing of the value list leaves intact: those without comma,
    closing parenthesis or quote character. *)
Definition quoted (v : string) : string := "'" ++ v ++ "'".

Definition plain_char (c : ascii) : bool :=
  negb (Ascii.eqb c "," || Ascii.eqb c ")" || Ascii.eqb c SQ || Ascii.eqb c DQ).

Definition plain_literal (v : string) : bool := all_chars plain_char v.

(** A character that [escape_sql] leaves alone *)
Definition sql_safe (c : ascii) : bool :=
  negb (Ascii.eqb c BS || Ascii.eqb c SQ || Ascii.eqb c LF || Ascii.eqb c CR).

(** The number of characters of [s] that satisfy [p] *)
Fixpoint count_chars (p : ascii -> bool) (s : string) : nat :=
  match s with
  | "" => O
  | String c r => ((if p c then 1 else 0) + count_chars p r)%nat
  end.

(** The text that the dump format prescribes for a value, a row and an
    INSERT statement, spelled out on its own (it does not go through
    [render_value], [render_row], [insert_statement] or [escape_sql]), to
    compare what [write_table_data] writes against. *)
Definition value_text (v : value) : string :=
  match v with
  | VNone => "NULL"
  | VInt n => str_of_int n
  | VFloat h => str_of_float h
  | VStr s => "'" ++ escape_chars s ++ "'"
  end.

Definition row_text (values : row) : string :=
  "(" ++ String.concat "," (map value_text values) ++ ")".

Definition insert_text (table_name : string) (col_names : list string)
    (rows : list row) : string :=
  "INSERT INTO `" ++ table_name ++ "` (`" ++ String.concat "`,`" col_names
  ++ "`) VALUES" ++ nl
  ++ String.concat ("," ++ nl) (map row_text rows)
  ++ ";" ++ nl.

(** The data block of a table, given the batches of its INSERT statements *)
Definition data_section (table_def : table_def) (bs : list (list row)) : string :=
  data_prologue table_def
  ++ String.concat ""
       (map (insert_text (name table_def) (map fst (columns table_def))) bs)
  ++ data_epilogue table_def.

(** A calendar date: month 1 to 12, day 1 to the length of the month *)
Definition valid_date (d : Z * Z * Z) : bool :=
  let '(y, m, dd) := d in
  (1 <=? m) && (m <=? 12) && (1 <=? dd) && (dd <=? days_in_month y m).

(** A text that [escape_sql] leaves alone *)
Definition safe (s : string) : Prop := all_chars sql_safe s = true.

(** A text without newline or carriage return *)
Definition one_line (s : string) : Prop :=
  all_chars (fun c => negb (raw_line_break c)) s = true.

Definition is_space (c : ascii) : bool := Ascii.eqb c " ".

(** Calendar order on dates (year, month, day) *)
Definition date_le (a b : Z * Z * Z) : bool :=
  let '(y1, m1, d1) := a in
  let '(y2, m2, d2) := b in
  (y1 <? y2) || ((y1 =? y2) && ((m1 <? m2) || ((m1 =? m2) && (d1 <=? d2)))).

(** The column reaches the IP-address rule: no rule between the null
    rule and it claims the column, and the lower-cased name contains [ip]. *)
Definition reaches_ip_rule (col_name col_type : string) : bool :=
  let col_lower := lower col_name in
  let type_lower := lower col_type in
  negb (String.eqb col_name "id" && contains "auto_increment" type_lower)
  && negb (endswith col_name "_id")
  && negb (contains "email" col_lower)
  && negb (String.eqb col_lower "name" || String.eqb col_lower "author_name")
  && negb (String.eqb col_lower "first_name")
  && negb (String.eqb col_lower "last_name")
  && negb (contains "url" col_lower)
  && contains "ip" col_lower.

Definition is_lf (c : ascii) : bool := Ascii.eqb c LF.

(** * Properties *)

(** ** The state monad *)

Lemma always_ret {A} (P : A -> Prop) (x : A) : P x -> always P (ret x).
Proof. intros H g. exact H. Qed.

Lemma always_bind {A B} (Q : A -> Prop) (P : B -> Prop) (m : M A) (k : A -> M B) :
  always Q m -> (forall x, Q x -> always P (k x)) -> always P (bind m k).
Proof.
  intros Hm Hk g. unfold bind.
  specialize (Hm g). destruct (m g) as [x g']. simpl in Hm.
  apply Hk, Hm.
Qed.

Lemma always_bind_any {A B} (P : B -> Prop) (m : M A) (k : A -> M B) :
  (forall x, always P (k x)) -> always P (bind m k).
Proof.
  intros Hk. apply (always_bind (fun _ => True)); [intros g; exact I | auto].
Qed.

Lemma always_weaken {A} (P Q : A -> Prop) (m : M A) :
  (forall x, P x -> Q x) -> always P m -> always Q m.
Proof. intros H Hm g. apply H, Hm. Qed.

(** ** Escaping *)

Lemma prefix_single (a c : ascii) (r : string) :
  String.prefix (String a "") (String c r) = Ascii.eqb c a.
Proof.
  simpl. destruct (ascii_dec a c) as [->|Hne].
  - rewrite Ascii.eqb_refl. now destruct r.
  - symmetry. apply Ascii.eqb_neq. congruence.
Qed.

Lemma replace_single (a : ascii) (new s : string) :
  replace (String a "") new s = subst_char a new s.
Proof.
  unfold replace. induction s as [|c r IH]; [reflexivity|].
  cbn [replace_from subst_char]. rewrite prefix_single.
  destruct (Ascii.eqb c a); cbn [String.length Nat.sub]; rewrite IH; reflexivity.
Qed.

Lemma string_app_assoc (x y z : string) : (x ++ y) ++ z = x ++ (y ++ z).
Proof. induction x as [|c x IH]; simpl; [reflexivity | now rewrite IH]. Qed.

Lemma string_app_nil_r (x : string) : x ++ "" = x.
Proof. induction x as [|c x IH]; simpl; [reflexivity | now rewrite IH]. Qed.

Lemma string_app_length (x y : string) :
  String.length (x ++ y) = (String.length x + String.length y)%nat.
Proof. induction x as [|c x IH]; simpl; [reflexivity | now rewrite IH]. Qed.

Lemma subst_char_app (a : ascii) (new x y : string) :
  subst_char a new (x ++ y) = subst_char a new x ++ subst_char a new y.
Proof.
  induction x as [|c x IH]; simpl; [reflexivity|].
  now rewrite IH, string_app_assoc.
Qed.

Lemma escape_one (c : ascii) :
  subst_char CR "\r" (subst_char LF "\n" (subst_char SQ "\'"
    (subst_char BS "\\" (String c "")))) = escape_char c.
Proof.
  unfold escape_char. simpl.
  destruct (Ascii.eqb c BS) eqn:Hb; [reflexivity|].
  simpl. destruct (Ascii.eqb c SQ) eqn:Hq; [reflexivity|].
  simpl. destruct (Ascii.eqb c LF) eqn:Hl; [reflexivity|].
  simpl. now destruct (Ascii.eqb c CR).
Qed.

Lemma escape_sql_chars (s : string) : escape_sql (VStr s) = escape_chars s.
Proof.
  unfold escape_sql, str_of_value.
  change "'" with (String SQ ""). change "\" with (String BS "").
  rewrite !replace_single.
  induction s as [|c r IH]; [reflexivity|].
  change (String c r) with (String c "" ++ r).
  rewrite !subst_char_app, IH, escape_one. reflexivity.
Qed.

Lemma escape_char_cases (c : ascii) :
  (c = BS /\ escape_char c = "\\") \/ (c = SQ /\ escape_char c = "\'") \/
  (c = LF /\ escape_char c = "\n") \/ (c = CR /\ escape_char c = "\r") \/
  (Ascii.eqb c BS = false /\ Ascii.eqb c SQ = false /\ Ascii.eqb c LF = false
   /\ Ascii.eqb c CR = false /\ escape_char c = String c "").
Proof.
  unfold escape_char.
  destruct (Ascii.eqb c BS) eqn:Hb; [apply Ascii.eqb_eq in Hb; auto|].
  destruct (Ascii.eqb c SQ) eqn:Hq; [apply Ascii.eqb_eq in Hq; auto|].
  destruct (Ascii.eqb c LF) eqn:Hl; [apply Ascii.eqb_eq in Hl; auto 6|].
  destruct (Ascii.eqb c CR) eqn:Hr; [apply Ascii.eqb_eq in Hr; auto 6|].
  auto 10.
Qed.

Lemma escape_chars_well_escaped (s : string) : well_escaped (escape_chars s) = true.
Proof.
  induction s as [|c r IH]; [reflexivity|].
  cbn [escape_chars].
  destruct (escape_char_cases c)
    as [[-> ->]|[[-> ->]|[[-> ->]|[[-> ->]|(Hb & Hq & Hl & Hr & ->)]]]];
    try exact IH.
  cbn [append well_escaped]. now rewrite Hb, Hq, Hl, Hr, IH.
Qed.

Lemma all_chars_app (p : ascii -> bool) (x y : string) :
  all_chars p (x ++ y) = all_chars p x && all_chars p y.
Proof.
  induction x as [|c x IH]; simpl; [reflexivity|].
  now rewrite IH, andb_assoc.
Qed.

Lemma escape_chars_no_line_break (s : string) :
  all_chars (fun c => negb (raw_line_break c)) (escape_chars s) = true.
Proof.
  induction s as [|c r IH]; [reflexivity|].
  cbn [escape_chars]. rewrite all_chars_app, IH, andb_true_r.
  destruct (escape_char_cases c)
    as [[-> ->]|[[-> ->]|[[-> ->]|[[-> ->]|(Hb & Hq & Hl & Hr & ->)]]]];
    try reflexivity.
  simpl. unfold raw_line_break. now rewrite Hl, Hr.
Qed.

(** C3. For every string [s], [escape_sql] applies the four replacements
    (backslash, single quote, newline, carriage return) in that order; the
    result is the input with each of these characters replaced by its
    two-character escape sequence, so it holds no raw newline or carriage
    return, and every backslash or quote in it belongs to an escape
    sequence; [write_table_data] emits the result between single quotes. *)
Theorem escape_sql_neutralizes (s : string) :
  let out := escape_sql (VStr s) in
  out = replace (String CR "") "\r" (replace (String LF "") "\n"
          (replace "'" "\'" (replace "\" "\\" s)))
  /\ out = escape_chars s
  /\ all_chars (fun c => negb (raw_line_break c)) out = true
  /\ well_escaped out = true
  /\ render_value (VStr s) = "'" ++ out ++ "'".
Proof.
  cbv zeta. rewrite escape_sql_chars. repeat split.
  - rewrite <- escape_sql_chars. reflexivity.
  - apply escape_chars_no_line_break.
  - apply escape_chars_well_escaped.
  - unfold render_value. now rewrite escape_sql_chars.
Qed.

(** ** The size controller *)

Lemma table_count : List.length TABLE_DEFINITIONS = 10%nat.
Proof. reflexivity. Qed.

Lemma floor_div_div (a b c : Z) :
  0 < b -> 0 < c ->
  a / b / c = Qfloor (inject_Z a / inject_Z b / inject_Z c)%Q.
Proof.
  intros Hb Hc.
  rewrite Z.div_div by lia.
  rewrite Zdiv_Qdiv. apply Qfloor_comp.
  rewrite inject_Z_mult. field.
  split; intros H; unfold Qeq in H; simpl in H; lia.
Qed.

(** C6. For every target size in bytes, the per-table row count is
    [max(100, floor(target_bytes / table_count / 750))], the division being
    taken over the rationals; it is never below 100, and it is 100 for a
    target of 0. *)
Theorem rows_per_table_contract (target_bytes : Z) :
  rows_per_table target_bytes =
    Z.max 100 (Qfloor (inject_Z target_bytes
                       / inject_Z (Z.of_nat (List.length TABLE_DEFINITIONS))
                       / inject_Z 750)%Q)
  /\ 100 <= rows_per_table target_bytes
  /\ rows_per_table 0 = 100.
Proof.
  unfold rows_per_table. rewrite table_count. repeat split.
  - rewrite floor_div_div by lia. reflexivity.
  - lia.
Qed.

(** ** The random primitives stay in their documented ranges *)

Lemma random_below : always (fun k => (k < unit_denominator)%N) random.
Proof. intros g. simpl. apply N.mod_lt. discriminate. Qed.

Lemma randbelow_range (n : Z) :
  0 < n -> always (fun k => 0 <= k < n) (randbelow n).
Proof. intros Hn g. simpl. apply Z.mod_pos_bound, Hn. Qed.

Lemma randint_range (a b : Z) :
  a <= b -> always (fun k => a <= k <= b) (randint a b).
Proof.
  intros Hab. unfold randint.
  apply (always_bind (fun k => 0 <= k < b - a + 1)).
  - apply randbelow_range. lia.
  - intros k Hk. apply always_ret. lia.
Qed.

Lemma scaled_index_below (n : nat) :
  (0 < n)%nat -> always (fun i => (i < n)%nat) (scaled_index n).
Proof.
  intros Hn. unfold scaled_index.
  apply (always_bind (fun k => (k < unit_denominator)%N)); [apply random_below|].
  intros k Hk. apply always_ret.
  assert (k * N.of_nat n / unit_denominator < N.of_nat n)%N; [|lia].
  apply N.Div0.div_lt_upper_bound. nia.
Qed.

Lemma choice_in (seq : list string) :
  seq <> [] -> always (fun s => In s seq) (choice seq).
Proof.
  intros Hne. unfold choice.
  apply (always_bind (fun i => 0 <= i < Z.of_nat (List.length seq))).
  - apply randbelow_range. destruct seq; [congruence | simpl; lia].
  - intros i Hi. apply always_ret, nth_In. lia.
Qed.

Lemma choices_in (population : list string) (k : nat) :
  population <> [] ->
  always (fun l => List.length l = k /\ Forall (fun s => In s population) l)
         (choices population k).
Proof.
  intros Hne. induction k as [|k IH]; simpl.
  - apply always_ret. auto.
  - apply (always_bind (fun i => (i < List.length population)%nat)).
    + apply scaled_index_below. destruct population; [congruence | simpl; lia].
    + intros i Hi. eapply always_bind; [exact IH|].
      intros rest [Hlen Hall]. apply always_ret. split.
      * simpl. now rewrite Hlen.
      * constructor; [now apply nth_In | exact Hall].
Qed.

(** ** The null rule is the only source of nulls *)

Ltac walk_rules :=
  repeat match goal with
         | |- always _ (if ?b then _ else _) => destruct b eqn:?
         | |- always _ (match ?o with Some _ => _ | None => _ end) => destruct o eqn:?
         end.

Ltac result_shape :=
  repeat (apply always_bind_any; intros); apply always_ret.

Lemma text_and_char_rules_not_none (col_lower type_lower : string) :
  always (fun v => v <> VNone) (text_and_char_rules col_lower type_lower).
Proof.
  unfold text_and_char_rules. cbv zeta.
  walk_rules; result_shape; discriminate.
Qed.

Lemma name_and_type_rules_not_none now col_name col_type row_id :
  always (fun v => v <> VNone) (name_and_type_rules now col_name col_type row_id).
Proof.
  unfold name_and_type_rules. cbv zeta.
  walk_rules; try apply text_and_char_rules_not_none; result_shape; discriminate.
Qed.

(** How the null rule and the remaining rules combine *)
Lemma generate_row_value_unfold now table_name col_name col_type row_id g :
  generate_row_value now table_name col_name col_type row_id g =
    if contains "DEFAULT NULL" col_type then
      if lt_one_tenth (fst (random g)) then (VNone, snd (random g))
      else name_and_type_rules now col_name col_type row_id (snd (random g))
    else name_and_type_rules now col_name col_type row_id g.
Proof.
  unfold generate_row_value.
  destruct (contains "DEFAULT NULL" col_type); [|reflexivity].
  unfold bind at 1. unfold bind at 1.
  destruct (random g) as [k g']. cbn [ret fst snd].
  now destruct (lt_one_tenth k).
Qed.

Lemma generate_row_value_null_rule now table_name col_name col_type row_id g :
  fst (generate_row_value now table_name col_name col_type row_id g) = VNone
  <-> null_rule_fires col_type g = true.
Proof.
  rewrite generate_row_value_unfold. unfold null_rule_fires.
  destruct (contains "DEFAULT NULL" col_type); cbn [andb].
  - destruct (lt_one_tenth (fst (random g))); [tauto|].
    split; [|discriminate]. intros H.
    now apply name_and_type_rules_not_none in H.
  - split; [|discriminate]. intros H.
    now apply name_and_type_rules_not_none in H.
Qed.

(** C10. [generate_row_value] returns null only if the declared type
    string contains the substring DEFAULT NULL: for a column declared
    without it the synthesised value is never null, whatever the table,
    the column name, the row number and the random draws. *)
Theorem null_only_if_default_null now table_name col_name col_type row_id g :
  fst (generate_row_value now table_name col_name col_type row_id g) = VNone ->
  contains "DEFAULT NULL" col_type = true.
Proof.
  intros H. apply generate_row_value_null_rule in H.
  unfold null_rule_fires in H. now apply andb_true_iff in H.
Qed.

(** The comparison of the null rule is a comparison with one tenth. *)
Lemma lt_one_tenth_spec (k : N) :
  lt_one_tenth k = true <-> (Z.of_N k # 9007199254740992 < 1 # 10)%Q.
Proof.
  unfold lt_one_tenth, Qlt. cbn [Qnum Qden].
  change unit_denominator with 9007199254740992%N.
  rewrite N.ltb_lt. lia.
Qed.

(** C5. For every column whose type allows null (contains DEFAULT NULL),
    a draw below one tenth makes the synthesiser return null whatever the
    table, the column name, the rest of the type and the row number: no
    other rule is consulted.  The draw [k / 2^53] is below the threshold
    exactly when it is below 1/10, and some draw is, so null is possible. *)
Theorem null_injection now table_name col_name col_type row_id :
  contains "DEFAULT NULL" col_type = true ->
  (forall g, lt_one_tenth (fst (random g)) = true ->
     generate_row_value now table_name col_name col_type row_id g
     = (VNone, snd (random g)))
  /\ (forall k, lt_one_tenth k = true <-> (Z.of_N k # 9007199254740992 < 1 # 10)%Q)
  /\ (exists g,
        fst (generate_row_value now table_name col_name col_type row_id g) = VNone).
Proof.
  intros Hnull. split; [|split].
  - intros g Hdraw. rewrite generate_row_value_unfold, Hnull, Hdraw. reflexivity.
  - apply lt_one_tenth_spec.
  - exists (const_tape 0).
    rewrite generate_row_value_unfold, Hnull. reflexivity.
Qed.

(** ** The foreign-key rule *)

Lemma endswith_id_not_id (col_name : string) :
  endswith col_name "_id" = true -> String.eqb col_name "id" = false.
Proof.
  intros H. apply String.eqb_neq. intros ->. discriminate.
Qed.

Lemma name_and_type_rules_fk now col_name col_type row_id :
  endswith col_name "_id" = true ->
  name_and_type_rules now col_name col_type row_id =
    (n <- randint 1 (Z.max 1 (row_id / 2)) ;; ret (VInt n)).
Proof.
  intros H. unfold name_and_type_rules. cbv zeta.
  now rewrite (endswith_id_not_id _ H), H.
Qed.

Lemma rules_when_null_rule_silent now table_name col_name col_type row_id g :
  null_rule_fires col_type g = false ->
  exists g',
    generate_row_value now table_name col_name col_type row_id g
    = name_and_type_rules now col_name col_type row_id g'.
Proof.
  intros H. rewrite generate_row_value_unfold. unfold null_rule_fires in H.
  destruct (contains "DEFAULT NULL" col_type); cbn [andb] in H.
  - rewrite H. eauto.
  - eauto.
Qed.

Lemma fk_value_range now table_name col_name col_type row_id g :
  endswith col_name "_id" = true ->
  null_rule_fires col_type g = false ->
  exists k,
    fst (generate_row_value now table_name col_name col_type row_id g) = VInt k
    /\ 1 <= k <= Z.max 1 (row_id / 2).
Proof.
  intros Hfk Hnull.
  destruct (rules_when_null_rule_silent now table_name col_name col_type row_id g Hnull)
    as [g' ->].
  rewrite name_and_type_rules_fk by exact Hfk.
  revert g'.
  change (always (fun v => exists k, v = VInt k /\ 1 <= k <= Z.max 1 (row_id / 2))
            (n <- randint 1 (Z.max 1 (row_id / 2)) ;; ret (VInt n))).
  eapply always_bind; [apply randint_range; lia|].
  intros k Hk. apply always_ret. eauto.
Qed.

(** C7. For every column whose name ends with [_id] and every row number
    [N] (in particular [N >= 1]), unless the null rule fires first, the
    synthesised value is an integer between 1 and [max(1, N // 2)].  The rule
    comes before the email rule: a column named [email_id], whose name also
    matches the email pattern, gets such an integer and not an email
    address. *)
Theorem foreign_key_rule now table_name col_name col_type N g :
  endswith col_name "_id" = true ->
  null_rule_fires col_type g = false ->
  (exists k,
     fst (generate_row_value now table_name col_name col_type N g) = VInt k
     /\ 1 <= k <= Z.max 1 (N / 2))
  /\ contains "email" (lower "email_id") = true
  /\ (exists k,
        fst (generate_row_value now table_name "email_id" col_type N g) = VInt k
        /\ 1 <= k <= Z.max 1 (N / 2)).
Proof.
  intros Hfk Hnull. split; [|split].
  - now apply fk_value_range.
  - reflexivity.
  - now apply fk_value_range.
Qed.

(** ** Batching *)

Lemma batch_sizes_zero (b : Z) : batch_sizes b 0 = [].
Proof. unfold batch_sizes. now rewrite Zdiv_0_l, Zmod_0_l. Qed.

Lemma batch_sizes_step (b r : Z) :
  0 < b -> 0 < r ->
  batch_sizes b r = Z.to_nat (Z.min b r) :: batch_sizes b (r - Z.min b r).
Proof.
  intros Hb Hr. destruct (Z.lt_ge_cases r b) as [Hlt|Hge].
  - rewrite Z.min_r by lia. rewrite Z.sub_diag, batch_sizes_zero.
    unfold batch_sizes. rewrite Z.div_small, Z.mod_small by lia.
    destruct (Z.eqb_spec r 0); [lia | reflexivity].
  - rewrite Z.min_l by lia. unfold batch_sizes.
    assert (r / b = (r - b) / b + 1) as Hdiv.
    { replace r with ((r - b) + 1 * b) at 1 by ring. apply Z.div_add. lia. }
    assert (r mod b = (r - b) mod b) as Hmod.
    { replace r with ((r - b) + 1 * b) at 1 by ring. apply Z.mod_add. lia. }
    rewrite Hdiv, Hmod.
    rewrite Z2Nat.inj_add by (try apply Z.div_pos; lia).
    rewrite Nat.add_comm. reflexivity.
Qed.

Lemma batch_rows_length now table_def rows_written (count : nat) :
  forall i, always (fun rows => List.length rows = count)
                   (batch_rows now table_def rows_written i count).
Proof.
  induction count as [|count IH]; intros i; simpl.
  - now apply always_ret.
  - apply always_bind_any. intros values.
    eapply always_bind; [apply IH|].
    intros rest Hrest. apply always_ret. simpl. now rewrite Hrest.
Qed.

(** With a positive batch size the loop ends within [num_rows - rows_written]
    rounds, and its rounds have the sizes given by [batch_sizes]. *)
Lemma insert_loop_sizes now table_def num_rows :
  0 < insert_batch_size table_def ->
  forall fuel rows_written g,
    rows_written <= num_rows ->
    (Z.to_nat (num_rows - rows_written) <= fuel)%nat ->
    exists bs g',
      insert_loop fuel now table_def num_rows rows_written g = (Some bs, g')
      /\ map (@List.length row) bs
         = batch_sizes (insert_batch_size table_def) (num_rows - rows_written)
      /\ List.length (List.concat bs) = Z.to_nat (num_rows - rows_written).
Proof.
  intros Hb fuel. induction fuel as [|fuel IH]; intros rw g Hrw Hfuel.
  - assert (rw = num_rows) as -> by lia.
    simpl. rewrite Z.ltb_irrefl, Z.sub_diag, batch_sizes_zero.
    exists [], g. auto.
  - cbn [insert_loop]. destruct (Z.ltb_spec rw num_rows) as [Hlt|Hge].
    + set (current := Z.min (insert_batch_size table_def) (num_rows - rw)).
      assert (0 < current <= num_rows - rw) as Hcur by (unfold current; lia).
      unfold bind at 1.
      pose proof (batch_rows_length now table_def rw (Z.to_nat current) 0 g) as Hlen.
      destruct (batch_rows now table_def rw 0 (Z.to_nat current) g) as [rows g1].
      cbn [fst] in Hlen.
      destruct (IH (rw + current) g1) as (bs & g2 & Hrun & Hsizes & Htotal);
        [lia | lia |].
      unfold bind. rewrite Hrun. exists (rows :: bs), g2. repeat split.
      * cbn [map]. rewrite Hsizes, Hlen.
        rewrite (batch_sizes_step _ (num_rows - rw)) by lia.
        fold current. do 2 f_equal. lia.
      * cbn [List.concat]. rewrite length_app, Htotal, Hlen. lia.
    + assert (rw = num_rows) as -> by lia.
      rewrite Z.sub_diag, batch_sizes_zero. exists [], g. auto.
Qed.

(** With a batch size below one the loop never ends once it is entered. *)
Lemma insert_loop_diverges now table_def num_rows :
  insert_batch_size table_def <= 0 ->
  forall fuel rows_written g,
    rows_written < num_rows ->
    fst (insert_loop fuel now table_def num_rows rows_written g) = None.
Proof.
  intros Hb fuel. induction fuel as [|fuel IH]; intros rw g Hrw.
  - simpl. destruct (Z.ltb_spec rw num_rows); [reflexivity | lia].
  - cbn [insert_loop]. destruct (Z.ltb_spec rw num_rows); [|lia].
    unfold bind at 1.
    destruct (batch_rows now table_def rw 0 _ g) as [rows g1].
    unfold bind.
    specialize (IH (rw + Z.min (insert_batch_size table_def) (num_rows - rw)) g1).
    destruct (insert_loop fuel now table_def num_rows _ g1) as [later g2].
    cbn [fst] in IH. rewrite IH by lia. reflexivity.
Qed.

Lemma fold_fwrite (table_def : table_def) (bs : list (list row)) (f : string) :
  fold_left (fun f rows => fwrite f (insert_statement table_def rows)) bs f
  = f ++ String.concat "" (map (insert_statement table_def) bs).
Proof.
  revert f. induction bs as [|rows bs IH]; intros f; cbn [fold_left map].
  - simpl. now rewrite string_app_nil_r.
  - rewrite IH. unfold fwrite. rewrite string_app_assoc. f_equal.
    destruct bs; simpl; [now rewrite string_app_nil_r | reflexivity].
Qed.

Lemma catalogue_batch_sizes_positive :
  Forall (fun t => 0 < insert_batch_size t) TABLE_DEFINITIONS.
Proof. repeat constructor. Qed.

Example batch_sizes_130_50 : batch_sizes 50 130 = [50; 50; 30]%nat.
Proof. reflexivity. Qed.

(** The text written for a table, given the batches of the loop *)
Lemma write_table_data_text fuel now f table_def n g bs g' :
  table_batches fuel now table_def n g = (Some bs, g') ->
  write_table_data fuel now f table_def n g
  = (Some (f ++ data_prologue table_def
             ++ String.concat "" (map (insert_statement table_def) bs)
             ++ data_epilogue table_def), g').
Proof.
  intros Hrun. unfold write_table_data, bind. rewrite Hrun.
  cbn [option_map ret]. rewrite fold_fwrite. unfold fwrite.
  now rewrite !string_app_assoc.
Qed.

Lemma table_batches_total now table_def n fuel g :
  0 < insert_batch_size table_def ->
  0 <= n ->
  (Z.to_nat n <= fuel)%nat ->
  exists bs g',
    table_batches fuel now table_def n g = (Some bs, g')
    /\ map (@List.length row) bs = batch_sizes (insert_batch_size table_def) n
    /\ List.length (List.concat bs) = Z.to_nat n.
Proof.
  intros Hb Hn Hfuel.
  destruct (insert_loop_sizes now table_def n Hb fuel 0 g) as (bs & g' & Hrun & Hs & Ht);
    [lia | now rewrite Z.sub_0_r |].
  rewrite Z.sub_0_r in Hs, Ht. exists bs, g'. auto.
Qed.

Lemma render_value_text (v : value) : render_value v = value_text v.
Proof.
  destruct v; cbn [render_value value_text str_of_value]; try reflexivity.
  now rewrite escape_sql_chars.
Qed.

Lemma render_row_text (values : row) : render_row values = row_text values.
Proof.
  unfold render_row, row_text, join.
  now rewrite (map_ext render_value value_text render_value_text).
Qed.

Lemma insert_statement_text (table_def : table_def) (rows : list row) :
  insert_statement table_def rows
  = insert_text (name table_def) (map fst (columns table_def)) rows.
Proof.
  unfold insert_statement, insert_text, join. cbv zeta.
  now rewrite (map_ext render_row row_text render_row_text).
Qed.

(** C1. For every table definition (with a batch size of at least one, as
    all tables of the catalogue have) and every target row count [n >= 0],
    [write_table_data] ends, and what it appends to the file is the prologue,
    then one INSERT statement per batch, each with the column list and the
    rendered rows of the batch separated by a comma and a newline and closed
    by a semicolon, then the epilogue.  The batches hold [n] rows in total:
    [n // b] batches of exactly [b = insert_batch_size] rows, followed, when
    [n mod b] is not zero, by one batch of [n mod b] rows. *)
Theorem write_table_data_row_count now f table_def n fuel g :
  0 < insert_batch_size table_def ->
  0 <= n ->
  (Z.to_nat n <= fuel)%nat ->
  exists bs g',
    write_table_data fuel now f table_def n g
    = (Some (f ++ data_prologue table_def
               ++ String.concat ""
                    (map (insert_text (name table_def)
                            (map fst (columns table_def))) bs)
               ++ data_epilogue table_def), g')
    /\ map (@List.length row) bs = batch_sizes (insert_batch_size table_def) n
    /\ List.length (List.concat bs) = Z.to_nat n.
Proof.
  intros Hb Hn Hfuel.
  destruct (table_batches_total now table_def n fuel g Hb Hn Hfuel)
    as (bs & g' & Hrun & Hs & Ht).
  exists bs, g'. repeat split; [|exact Hs|exact Ht].
  rewrite (write_table_data_text _ _ _ _ _ _ _ _ Hrun).
  now rewrite (map_ext _ _ (insert_statement_text table_def)).
Qed.

(** ** Rows and their sequence numbers *)

Lemma Forall_from_app P start (a b : list row) :
  Forall_from P start a ->
  Forall_from P (start + Z.of_nat (List.length a)) b ->
  Forall_from P start (a ++ b)%list.
Proof.
  revert start. induction a as [|r a IH]; intros start Ha Hb'; simpl in *.
  - now rewrite Z.add_0_r in Hb'.
  - destruct Ha as [Hr Ha]. split; [exact Hr|].
    apply IH; [exact Ha|].
    replace (start + 1 + Z.of_nat (List.length a))
      with (start + Z.pos (Pos.of_succ_nat (List.length a))) by lia.
    exact Hb'.
Qed.

Lemma Forall_from_nth P start (rows : list row) (k : nat) (r : row) :
  Forall_from P start rows ->
  nth_error rows k = Some r ->
  P (start + Z.of_nat k) r.
Proof.
  revert start k. induction rows as [|r0 rows IH]; intros start k Hall Hk.
  - destruct k; discriminate.
  - destruct Hall as [H0 Hall]. destruct k as [|k]; simpl in Hk.
    + injection Hk as <-. now rewrite Z.add_0_r.
    + replace (start + Z.of_nat (S k)) with (start + 1 + Z.of_nat k) by lia.
      now apply IH.
Qed.

Section RowInvariant.

Variable now : clock.
Variable table_def : table_def.
Variable P : Z -> row -> Prop.
Hypothesis P_rows :
  forall row_id,
    always (P row_id) (row_values now (name table_def) (columns table_def) row_id).

Lemma batch_rows_rows rows_written (count : nat) :
  forall i, always (Forall_from P (rows_written + i + 1))
                   (batch_rows now table_def rows_written i count).
Proof.
  induction count as [|count IH]; intros i; simpl.
  - now apply always_ret.
  - eapply always_bind; [apply P_rows|].
    intros values Hv. eapply always_bind; [apply (IH (i + 1))|].
    intros rest Hrest. apply always_ret. split; [exact Hv|].
    now replace (rows_written + i + 1 + 1) with (rows_written + (i + 1) + 1) by lia.
Qed.

(** Row number [k] of the table, counted from one over all batches,
    satisfies [P k]. *)
Lemma insert_loop_rows num_rows :
  0 < insert_batch_size table_def ->
  forall fuel rows_written g bs g',
    insert_loop fuel now table_def num_rows rows_written g = (Some bs, g') ->
    Forall_from P (rows_written + 1) (List.concat bs).
Proof.
  intros Hb fuel. induction fuel as [|fuel IH]; intros rw g bs g' Hrun.
  - simpl in Hrun. destruct (rw <? num_rows); [discriminate|].
    injection Hrun as <- _. exact I.
  - cbn [insert_loop] in Hrun.
    destruct (Z.ltb_spec rw num_rows) as [Hlt|Hge];
      [|injection Hrun as <- _; exact I].
    set (current := Z.min (insert_batch_size table_def) (num_rows - rw)) in *.
    unfold bind at 1 in Hrun.
    pose proof (batch_rows_length now table_def rw (Z.to_nat current) 0 g) as Hlen.
    pose proof (batch_rows_rows rw (Z.to_nat current) 0 g) as Hrows.
    destruct (batch_rows now table_def rw 0 (Z.to_nat current) g) as [rows g1].
    cbn [fst] in Hlen, Hrows. unfold bind in Hrun.
    specialize (IH (rw + current) g1).
    destruct (insert_loop fuel now table_def num_rows (rw + current) g1)
      as [[later|] g2]; [|discriminate].
    injection Hrun as <- _. cbn [List.concat].
    apply Forall_from_app.
    + now rewrite Z.add_0_r in Hrows.
    + rewrite Hlen.
      replace (rw + 1 + Z.of_nat (Z.to_nat current)) with (rw + current + 1)
        by (unfold current; lia).
      now apply (IH later g2).
Qed.

End RowInvariant.

(** A property of what [generate_row_value] returns for a column holds of
    that column's entry in every row. *)
Lemma row_values_column now name (Q : value -> Prop) col_name col_type row_id :
  always Q (generate_row_value now name col_name col_type row_id) ->
  forall columns j,
    nth_error columns j = Some (col_name, col_type) ->
    always (fun r => exists v, nth_error r j = Some v /\ Q v)
           (row_values now name columns row_id).
Proof.
  intros HQ columns. induction columns as [|[cn ct] rest IH]; intros j Hj.
  - destruct j; discriminate.
  - cbn [row_values]. destruct j as [|j]; simpl in Hj.
    + injection Hj as -> ->.
      eapply always_bind; [exact HQ|].
      intros v Hv. apply always_bind_any. intros vals.
      apply always_ret. exists v. auto.
    + apply always_bind_any. intros v.
      eapply always_bind; [apply (IH j Hj)|].
      intros vals Hvals. apply always_ret. exact Hvals.
Qed.

(** ** The identifier rule *)

Lemma name_and_type_rules_id now col_type row_id :
  contains "auto_increment" (lower col_type) = true ->
  name_and_type_rules now "id" col_type row_id = ret (VInt row_id).
Proof.
  intros H. unfold name_and_type_rules. cbv zeta.
  now rewrite String.eqb_refl, H.
Qed.

Lemma generate_row_value_id now table_name col_type row_id g :
  contains "auto_increment" (lower col_type) = true ->
  contains "DEFAULT NULL" col_type = false ->
  generate_row_value now table_name "id" col_type row_id g = (VInt row_id, g).
Proof.
  intros Hauto Hnull.
  rewrite generate_row_value_unfold, Hnull, name_and_type_rules_id by exact Hauto.
  reflexivity.
Qed.

(** In a table with a column named [id] whose type is auto-incrementing
    and does not allow null, that column holds, in the [N]-th emitted row, the
    number [N]. *)
Lemma id_column_rows now table_def j col_type n fuel g :
  0 < insert_batch_size table_def ->
  nth_error (columns table_def) j = Some ("id", col_type) ->
  contains "auto_increment" (lower col_type) = true ->
  contains "DEFAULT NULL" col_type = false ->
  0 <= n ->
  (Z.to_nat n <= fuel)%nat ->
  exists bs g',
    table_batches fuel now table_def n g = (Some bs, g')
    /\ forall N, 1 <= N <= n ->
         exists r, nth_error (List.concat bs) (Z.to_nat (N - 1)) = Some r
                   /\ nth_error r j = Some (VInt N).
Proof.
  intros Hb Hj Hauto Hnull Hn Hfuel.
  destruct (table_batches_total now table_def n fuel g Hb Hn Hfuel)
    as (bs & g' & Hrun & _ & Hlen).
  exists bs, g'. split; [exact Hrun|]. intros N HN.
  destruct (nth_error (List.concat bs) (Z.to_nat (N - 1))) as [r|] eqn:Hr.
  - exists r. split; [reflexivity|].
    pose (P := fun (id : Z) (r : row) => nth_error r j = Some (VInt id)).
    assert (Forall_from P (0 + 1) (List.concat bs)) as Hall.
    { apply (insert_loop_rows now table_def P) with (num_rows := n) (fuel := fuel)
        (g := g) (g' := g'); [|exact Hb|exact Hrun].
      intros row_id g0.
      destruct (row_values_column now (name table_def)
                  (fun v => v = VInt row_id) "id" col_type row_id) with
        (columns := columns table_def) (j := j) (g := g0) as (v & Hv & ->).
      - intros g1. now rewrite generate_row_value_id.
      - exact Hj.
      - exact Hv. }
    pose proof (Forall_from_nth P _ _ _ _ Hall Hr) as HP. unfold P in HP.
    rewrite HP. do 2 f_equal. lia.
  - apply nth_error_None in Hr. lia.
Qed.

(** No auto-incrementing [id] column of the catalogue allows null. *)
Lemma catalogue_id_columns :
  forallb (fun t =>
             forallb (fun c =>
                        implb (String.eqb (fst c) "id"
                               && contains "auto_increment" (lower (snd c)))
                              (negb (contains "DEFAULT NULL" (snd c))))
                     (columns t))
          TABLE_DEFINITIONS = true.
Proof. reflexivity. Qed.

(** C2. For every table of the catalogue whose primary-key column is
    named [id] with an auto-incrementing type, and for every row count [n],
    [write_table_data] emits [n] rows and the value of the primary-key column
    in the [N]-th emitted row is exactly [N], for every [1 <= N <= n]: the
    primary-key values are unique and strictly increasing within the table. *)
Theorem primary_key_is_row_number now table_def j col_type n fuel g :
  In table_def TABLE_DEFINITIONS ->
  primary_key table_def = "id" ->
  nth_error (columns table_def) j = Some (primary_key table_def, col_type) ->
  contains "auto_increment" (lower col_type) = true ->
  0 <= n ->
  (Z.to_nat n <= fuel)%nat ->
  exists bs g',
    table_batches fuel now table_def n g = (Some bs, g')
    /\ forall N, 1 <= N <= n ->
         exists r, nth_error (List.concat bs) (Z.to_nat (N - 1)) = Some r
                   /\ nth_error r j = Some (VInt N).
Proof.
  intros Hin Hpk Hj Hauto Hn Hfuel. rewrite Hpk in Hj.
  apply (id_column_rows now table_def j col_type n fuel g);
    [|exact Hj|exact Hauto| |exact Hn|exact Hfuel].
  - exact (proj1 (Forall_forall _ _) catalogue_batch_sizes_positive _ Hin).
  - pose proof (proj1 (forallb_forall _ _) catalogue_id_columns _ Hin) as Hcols.
    pose proof (proj1 (forallb_forall _ _) Hcols _ (nth_error_In _ _ Hj)) as Hc.
    cbn [fst snd] in Hc. rewrite String.eqb_refl, Hauto in Hc.
    now apply negb_true_iff in Hc.
Qed.

Lemma primary_key_is_row_number_witness :
  exists bs g',
    table_batches 3 (mk_clock 0 0) (nth 0 TABLE_DEFINITIONS (mk_table "" [] "" 0))
      3 (const_tape 0) = (Some bs, g')
    /\ forall N, 1 <= N <= 3 ->
         exists r, nth_error (List.concat bs) (Z.to_nat (N - 1)) = Some r
                   /\ nth_error r 0 = Some (VInt N).
Proof.
  apply (primary_key_is_row_number (mk_clock 0 0)
           (nth 0 TABLE_DEFINITIONS (mk_table "" [] "" 0))
           0 "bigint unsigned NOT NULL AUTO_INCREMENT" 3 3 (const_tape 0));
    [simpl; auto | reflexivity | reflexivity | reflexivity | lia | simpl; lia].
Defined.

(** ** The schema section does not depend on the run *)

Lemma concat_empty_cons (x : string) (l : list string) :
  String.concat "" (x :: l) = x ++ String.concat "" l.
Proof. destruct l; simpl; [now rewrite string_app_nil_r | reflexivity]. Qed.

Lemma fold_write_table_structure (tables : list table_def) (f : string) :
  fold_left write_table_structure tables f
  = f ++ String.concat "" (map table_structure tables).
Proof.
  revert f. induction tables as [|t tables IH]; intros f; cbn [fold_left map].
  - simpl. now rewrite string_app_nil_r.
  - rewrite IH, concat_empty_cons. unfold write_table_structure, fwrite.
    now rewrite string_app_assoc.
Qed.

Lemma write_all_data_total now (tables : list table_def) n fuel :
  Forall (fun t => 0 < insert_batch_size t) tables ->
  0 <= n ->
  (Z.to_nat n <= fuel)%nat ->
  forall f g, exists d g',
    write_all_data fuel now tables n f g = (Some (f ++ d), g').
Proof.
  intros Hall Hn Hfuel. induction Hall as [|t tables Ht _ IH]; intros f g.
  - exists "", g. simpl. now rewrite string_app_nil_r.
  - destruct (table_batches_total now t n fuel g Ht Hn Hfuel) as (bs & g1 & Hrun & _).
    cbn [write_all_data]. unfold bind.
    rewrite (write_table_data_text _ _ f _ _ _ _ _ Hrun).
    match goal with
    | |- context [write_all_data fuel now tables n ?f1 g1] =>
        destruct (IH f1 g1) as (d & g2 & ->)
    end.
    eexists. exists g2. rewrite !string_app_assoc. reflexivity.
Qed.

Lemma generate_dump_shape now target_size_mb g :
  exists d g',
    generate_dump (Z.to_nat (rows_per_table (target_size_mb * 1024 * 1024)))
                  now target_size_mb g
    = (Some (write_header "" ++ schema_blocks ++ d), g').
Proof.
  unfold generate_dump. cbv zeta.
  rewrite fold_write_table_structure. fold schema_blocks.
  set (n := rows_per_table (target_size_mb * 1024 * 1024)).
  assert (100 <= n) as Hn by (unfold n, rows_per_table; lia).
  destruct (write_all_data_total now TABLE_DEFINITIONS n (Z.to_nat n)
              catalogue_batch_sizes_positive ltac:(lia) (Nat.le_refl _)
              (write_header "" ++ schema_blocks) g) as (d & g' & Hrun).
  unfold bind. rewrite Hrun. cbn [option_map ret].
  exists (d ++ write_footer now ""), g'.
  unfold write_footer at 1, fwrite. cbn [append].
  now rewrite !string_app_assoc.
Qed.

Lemma schema_blocks_statements :
  forallb (fun t =>
             contains ("DROP TABLE IF EXISTS `" ++ name t ++ "`;" ++ nl)
                      (table_structure t)
             && contains ("CREATE TABLE `" ++ name t ++ "` (" ++ nl)
                         (table_structure t))
          TABLE_DEFINITIONS = true.
Proof. vm_compute. reflexivity. Qed.

(** The data rows of two runs may differ. *)
Example data_rows_may_differ :
  fst (row_values (mk_clock 0 0) "posts" [("user_id", "bigint unsigned NOT NULL")]
         9 (const_tape 0))
  <> fst (row_values (mk_clock 0 0) "posts" [("user_id", "bigint unsigned NOT NULL")]
            9 (const_tape 3)).
Proof. vm_compute. discriminate. Qed.

(** C9. Two runs of the generator with the same target size (whatever
    their clocks and their random draws) both complete, and both files start
    with the header followed by the same schema section: the schema blocks of
    the catalogue tables in order, each a function of the table definition
    alone and each holding the table's DROP TABLE IF EXISTS and CREATE TABLE
    statements.  Only what follows the schema section may differ. *)
Theorem schema_blocks_reproducible now1 now2 target_size_mb g1 g2 :
  let fuel := Z.to_nat (rows_per_table (target_size_mb * 1024 * 1024)) in
  (exists d1 d2 g1' g2',
     generate_dump fuel now1 target_size_mb g1
     = (Some (write_header "" ++ schema_blocks ++ d1), g1')
     /\ generate_dump fuel now2 target_size_mb g2
        = (Some (write_header "" ++ schema_blocks ++ d2), g2'))
  /\ schema_blocks = String.concat "" (map table_structure TABLE_DEFINITIONS)
  /\ forallb (fun t =>
                contains ("DROP TABLE IF EXISTS `" ++ name t ++ "`;" ++ nl)
                         (table_structure t)
                && contains ("CREATE TABLE `" ++ name t ++ "` (" ++ nl)
                            (table_structure t))
             TABLE_DEFINITIONS = true.
Proof.
  cbv zeta. split; [|split].
  - destruct (generate_dump_shape now1 target_size_mb g1) as (d1 & g1' & H1).
    destruct (generate_dump_shape now2 target_size_mb g2) as (d2 & g2' & H2).
    exists d1, d2, g1', g2'. auto.
  - reflexivity.
  - exact schema_blocks_statements.
Qed.

(** ** Parsing the value list of an enum type *)

Lemma prefix_app (p x : string) : String.prefix p (p ++ x) = true.
Proof.
  induction p as [|c p IH]; simpl; [now destruct x|].
  destruct (ascii_dec c c); [exact IH | congruence].
Qed.

Lemma drop_app (p x : string) : drop (String.length p) (p ++ x) = x.
Proof. induction p as [|c p IH]; simpl; [now destruct x | exact IH]. Qed.

Lemma span_run (cls : ascii -> bool) (body rest : string) (d : ascii) :
  all_chars cls body = true ->
  cls d = false ->
  span cls (body ++ String d rest) = (body, String d rest).
Proof.
  intros Hbody Hd. induction body as [|c body IH]; simpl in *.
  - now rewrite Hd.
  - apply andb_true_iff in Hbody as [Hc Hbody].
    now rewrite Hc, (IH Hbody).
Qed.

Lemma re_search_here (lit : string) (cls : ascii -> bool) (s g : string) :
  re_match_at lit cls s = Some g -> re_search lit cls s = Some g.
Proof. intros H. destruct s; simpl; now rewrite H. Qed.

(** A type string that starts with [lit], a non-empty run of class
    characters and a closing parenthesis matches at its start. *)
Lemma re_search_group (lit : string) (cls : ascii -> bool) (body rest : string) :
  body <> "" ->
  all_chars cls body = true ->
  cls ")"%char = false ->
  re_search lit cls (lit ++ body ++ ")" ++ rest) = Some body.
Proof.
  intros Hne Hbody Hcls. apply re_search_here. unfold re_match_at.
  rewrite prefix_app, drop_app.
  change (")" ++ rest) with (String ")" rest).
  rewrite span_run by assumption.
  destruct body; [congruence | reflexivity].
Qed.

Lemma split_from_piece (q s : string) :
  all_chars (fun c => negb (Ascii.eqb c ",")) q = true ->
  split_from "," 0 (q ++ String "," s) = q :: split_from "," 0 s.
Proof.
  intros Hq. induction q as [|c q IH]; cbn [append all_chars split_from] in *.
  - now rewrite prefix_single, Ascii.eqb_refl.
  - apply andb_true_iff in Hq as [Hc Hq]. apply negb_true_iff in Hc.
    now rewrite prefix_single, Hc, (IH Hq).
Qed.

Lemma split_from_last (q : string) :
  all_chars (fun c => negb (Ascii.eqb c ",")) q = true ->
  split_from "," 0 q = [q].
Proof.
  intros Hq. induction q as [|c q IH]; cbn [all_chars split_from] in *.
  - reflexivity.
  - apply andb_true_iff in Hq as [Hc Hq]. apply negb_true_iff in Hc.
    now rewrite prefix_single, Hc, (IH Hq).
Qed.

Lemma split_join (qs : list string) :
  qs <> [] ->
  Forall (fun q => all_chars (fun c => negb (Ascii.eqb c ",")) q = true) qs ->
  split (join "," qs) "," = qs.
Proof.
  intros Hne Hall. unfold split, join.
  induction Hall as [|q qs Hq Hall IH]; [congruence|].
  destruct qs as [|q' qs].
  - simpl. now apply split_from_last.
  - change (String.concat "," (q :: q' :: qs))
      with (q ++ String "," (String.concat "," (q' :: qs))).
    rewrite split_from_piece by exact Hq.
    f_equal. apply IH. discriminate.
Qed.

Lemma rstrip_quoted (v : string) :
  plain_literal v = true -> rstrip ("'" ++ dq) (v ++ "'") = v.
Proof.
  unfold plain_literal. intros Hv. induction v as [|c v IH]; simpl in *.
  - reflexivity.
  - apply andb_true_iff in Hv as [Hc Hv]. rewrite (IH Hv).
    destruct v; [|reflexivity].
    unfold plain_char in Hc. apply negb_true_iff in Hc.
    repeat (apply orb_false_iff in Hc as [Hc ?]).
    fold SQ. fold DQ.
    replace (Ascii.eqb c SQ) with false by congruence.
    replace (Ascii.eqb c DQ) with false by congruence.
    reflexivity.
Qed.

Lemma lstrip_plain (v : string) :
  plain_literal v = true -> lstrip ("'" ++ dq) (v ++ "'") = v ++ "'" \/ v = "".
Proof.
  unfold plain_literal. intros Hv. destruct v as [|c v]; [now right | left].
  simpl in *. apply andb_true_iff in Hv as [Hc Hv].
  unfold plain_char in Hc. apply negb_true_iff in Hc.
  repeat (apply orb_false_iff in Hc as [Hc ?]).
  fold SQ. fold DQ.
  replace (Ascii.eqb c SQ) with false by congruence.
  replace (Ascii.eqb c DQ) with false by congruence.
  reflexivity.
Qed.

Lemma strip_quoted (v : string) :
  plain_literal v = true -> strip (quoted v) ("'" ++ dq) = v.
Proof.
  intros Hv. unfold strip, quoted.
  change ("'" ++ v ++ "'") with (String SQ (v ++ "'")).
  cbn [lstrip]. change (mem_char SQ ("'" ++ dq)) with true. cbv iota.
  destruct (lstrip_plain v Hv) as [->| ->].
  - now apply rstrip_quoted.
  - reflexivity.
Qed.

Lemma plain_literal_quoted_no_comma (v : string) :
  plain_literal v = true ->
  all_chars (fun c => negb (Ascii.eqb c ",")) (quoted v) = true.
Proof.
  unfold plain_literal, quoted. intros Hv.
  change ("'" ++ v ++ "'") with (String SQ (v ++ "'")).
  cbn [all_chars]. rewrite all_chars_app. cbn.
  rewrite andb_true_r.
  induction v as [|c v IH]; simpl in *; [reflexivity|].
  apply andb_true_iff in Hv as [Hc Hv]. rewrite (IH Hv), andb_true_r.
  unfold plain_char in Hc. apply negb_true_iff in Hc.
  repeat (apply orb_false_iff in Hc as [Hc ?]).
  now rewrite Hc.
Qed.

(** The values parsed from the list of plain literals are these literals. *)
Lemma enum_values_quoted (vs : list string) :
  vs <> [] ->
  Forall (fun v => plain_literal v = true) vs ->
  enum_values (join "," (map quoted vs)) = vs.
Proof.
  intros Hne Hall. unfold enum_values.
  rewrite split_join.
  - rewrite map_map. induction Hall as [|v vs Hv Hall IH]; [reflexivity|].
    cbn [map]. rewrite (strip_quoted v Hv). f_equal.
    destruct vs; [reflexivity | apply IH; discriminate].
  - destruct vs; [congruence | discriminate].
  - rewrite Forall_map. eapply Forall_impl; [|exact Hall].
    intros v Hv. now apply plain_literal_quoted_no_comma.
Qed.

(** ** The enum rule *)

Ltac split_conditions H :=
  cbv zeta in H;
  repeat (let H' := fresh "Hcond" in apply andb_true_iff in H as [H H']);
  repeat match goal with
         | Hc : negb _ = true |- _ => apply negb_true_iff in Hc
         end.

Ltac skip_rules :=
  repeat match goal with
         | Hc : ?b = false |- context [if ?b then _ else _] => rewrite Hc
         end.

Lemma name_and_type_rules_enum now col_name col_type row_id group :
  reaches_enum_rule col_name col_type = true ->
  contains "enum" (lower col_type) = true ->
  re_search "enum(" not_rparen (lower col_type) = Some group ->
  name_and_type_rules now col_name col_type row_id
  = (s <- choice (enum_values group) ;; ret (VStr s)).
Proof.
  intros Hreach Henum Hgroup. unfold reaches_enum_rule in Hreach.
  split_conditions Hreach.
  unfold name_and_type_rules. cbv zeta. skip_rules.
  now rewrite Henum, Hgroup.
Qed.

Lemma contains_here (p s : string) :
  String.prefix p s = true -> contains p s = true.
Proof. intros H. destruct s; cbn [contains]; now rewrite H. Qed.

Lemma all_chars_impl (p q : ascii -> bool) (s : string) :
  (forall c, p c = true -> q c = true) ->
  all_chars p s = true -> all_chars q s = true.
Proof.
  intros Hpq. induction s as [|c s IH]; simpl; [reflexivity|].
  intros H. apply andb_true_iff in H as [Hc Hs].
  now rewrite (Hpq c Hc), (IH Hs).
Qed.

Lemma plain_char_not_rparen (c : ascii) : plain_char c = true -> not_rparen c = true.
Proof.
  unfold plain_char, not_rparen. intros H. apply negb_true_iff in H.
  repeat (apply orb_false_iff in H as [H ?]).
  apply negb_true_iff. assumption.
Qed.

Lemma quoted_list_no_rparen (vs : list string) :
  Forall (fun v => plain_literal v = true) vs ->
  all_chars not_rparen (join "," (map quoted vs)) = true.
Proof.
  intros Hall. unfold join. induction Hall as [|v vs Hv Hall IH]; [reflexivity|].
  assert (all_chars not_rparen (quoted v) = true) as Hq.
  { unfold quoted. change ("'" ++ v ++ "'") with (String SQ (v ++ "'")).
    cbn [all_chars]. rewrite all_chars_app.
    rewrite (all_chars_impl plain_char not_rparen v plain_char_not_rparen Hv).
    reflexivity. }
  destruct vs as [|v' vs]; [exact Hq|].
  change (String.concat "," (map quoted (v :: v' :: vs)))
    with (quoted v ++ String "," (String.concat "," (map quoted (v' :: vs)))).
  rewrite all_chars_app, Hq. cbn [all_chars andb]. exact IH.
Qed.

Lemma quoted_list_not_empty (vs : list string) :
  vs <> [] -> join "," (map quoted vs) <> "".
Proof.
  destruct vs as [|v [|v' vs]]; [congruence | discriminate | discriminate].
Qed.

(** Outside the catalogue, the order of the rules decides: a rule on the
    column name comes before the enum rule, and so does the integer rule when
    a literal holds the letters [int]; the value list is read from the
    lower-cased type. *)
Example name_rule_before_enum_rule :
  fst (generate_row_value (mk_clock 0 0) "mail" "email_status"
         "enum('sent','bounced')" 1 (const_tape 0))
  = VStr "james.smith1@gmail.com".
Proof. vm_compute. reflexivity. Qed.

Example enum_literal_with_int_substring :
  fst (generate_row_value (mk_clock 0 0) "docs" "medium" "enum('print','web')"
         1 (const_tape 0)) = VInt 1.
Proof. vm_compute. reflexivity. Qed.

Example enum_literal_lowercased :
  fst (generate_row_value (mk_clock 0 0) "docs" "state" "enum('Draft','Final')"
         1 (const_tape 0)) = VStr "draft".
Proof. vm_compute. reflexivity. Qed.

(** When no rule before the enum rule claims the column and the search
    in the lower-cased type finds the list ['v1',...,'vk'], the value is null
    or one of the literals. *)
Lemma enum_rule_values now table_name col_name col_type vs row_id g :
  reaches_enum_rule col_name col_type = true ->
  contains "enum" (lower col_type) = true ->
  re_search "enum(" not_rparen (lower col_type) = Some (join "," (map quoted vs)) ->
  vs <> [] ->
  Forall (fun v => plain_literal v = true) vs ->
  fst (generate_row_value now table_name col_name col_type row_id g) = VNone
  \/ exists s,
       fst (generate_row_value now table_name col_name col_type row_id g) = VStr s
       /\ In s vs.
Proof.
  intros Hreach Henum Hgroup Hne Hplain.
  destruct (null_rule_fires col_type g) eqn:Hnull.
  - left. now apply generate_row_value_null_rule.
  - right.
    destruct (rules_when_null_rule_silent now table_name col_name col_type row_id g Hnull)
      as [g' ->].
    rewrite (name_and_type_rules_enum now col_name col_type row_id
               (join "," (map quoted vs))) by assumption.
    revert g'.
    change (always (fun v => exists s, v = VStr s /\ In s vs)
              (s <- choice (enum_values (join "," (map quoted vs))) ;; ret (VStr s))).
    rewrite enum_values_quoted by assumption.
    eapply always_bind; [apply choice_in, Hne|].
    intros s Hs. apply always_ret. eauto.
Qed.

(** Every column of the catalogue whose type starts with [enum(] reaches
    the enum rule, and the value list found in its lower-cased type is the
    one written in the type. *)
Lemma catalogue_enum_columns_reach_rule :
  forallb (fun t =>
             forallb (fun c =>
                        implb (String.prefix "enum(" (snd c))
                              (reaches_enum_rule (fst c) (snd c)
                               && contains "enum" (lower (snd c))
                               && match re_search "enum(" not_rparen (lower (snd c)),
                                        re_search "enum(" not_rparen (snd c) with
                                  | Some a, Some b => String.eqb a b
                                  | _, _ => false
                                  end))
                     (columns t))
          TABLE_DEFINITIONS = true.
Proof. reflexivity. Qed.

(** C4. For every column of the catalogue whose declared type is an enum,
    written [enum('v1',...,'vk')] and followed by anything, every value that
    [generate_row_value] returns is null or one of the declared literals
    [v1 ... vk], for every row sequence number and every random draw: a
    column typed [enum('draft','published','archived')] never yields a value
    outside these three. *)
Theorem enum_columns_yield_declared_values
    now table_def table_name col_name col_type vs rest row_id g :
  In table_def TABLE_DEFINITIONS ->
  In (col_name, col_type) (columns table_def) ->
  vs <> [] ->
  Forall (fun v => plain_literal v = true) vs ->
  col_type = "enum(" ++ join "," (map quoted vs) ++ ")" ++ rest ->
  fst (generate_row_value now table_name col_name col_type row_id g) = VNone
  \/ exists s,
       fst (generate_row_value now table_name col_name col_type row_id g) = VStr s
       /\ In s vs.
Proof.
  intros Hin Hcol Hne Hplain Hty.
  pose proof (proj1 (forallb_forall _ _) catalogue_enum_columns_reach_rule _ Hin)
    as Hcols.
  pose proof (proj1 (forallb_forall _ _) Hcols _ Hcol) as Hc. cbn [fst snd] in Hc.
  assert (String.prefix "enum(" col_type = true) as Hprefix
    by (rewrite Hty; apply prefix_app).
  assert (re_search "enum(" not_rparen col_type = Some (join "," (map quoted vs)))
    as Hdeclared.
  { rewrite Hty. apply re_search_group.
    - now apply quoted_list_not_empty.
    - now apply quoted_list_no_rparen.
    - reflexivity. }
  rewrite Hprefix, Hdeclared in Hc. cbn [implb] in Hc.
  apply andb_true_iff in Hc as [Hc Hgroup].
  apply andb_true_iff in Hc as [Hreach Henum].
  destruct (re_search "enum(" not_rparen (lower col_type)) as [group|] eqn:Hfound;
    [|discriminate].
  apply String.eqb_eq in Hgroup. subst group.
  now apply (enum_rule_values now table_name col_name col_type vs row_id g).
Qed.

Lemma enum_columns_yield_declared_values_witness :
  fst (generate_row_value (mk_clock 0 0) "posts" "status"
         "enum('draft','published','archived') DEFAULT 'draft'" 7 (const_tape 5))
  = VNone
  \/ exists s,
       fst (generate_row_value (mk_clock 0 0) "posts" "status"
              "enum('draft','published','archived') DEFAULT 'draft'" 7 (const_tape 5))
       = VStr s
       /\ In s ["draft"; "published"; "archived"].
Proof.
  apply (enum_columns_yield_declared_values (mk_clock 0 0)
           (nth 1 TABLE_DEFINITIONS (mk_table "" [] "" 0)) "posts" "status"
           "enum('draft','published','archived') DEFAULT 'draft'"
           ["draft"; "published"; "archived"] " DEFAULT 'draft'" 7 (const_tape 5));
    [simpl; auto | simpl; auto 10 | discriminate | repeat constructor | reflexivity].
Defined.

(** Both enum columns of the catalogue are covered. *)
Example catalogue_enum_columns :
  reaches_enum_rule "status" "enum('draft','published','archived') DEFAULT 'draft'"
  = true
  /\ reaches_enum_rule "status"
       "enum('pending','processing','shipped','delivered','cancelled') DEFAULT 'pending'"
     = true.
Proof. split; reflexivity. Qed.

(** ** The VARCHAR and CHAR rules *)

Lemma ascii_lowercase_letters :
  Forall (fun c => String.length c = 1%nat /\ all_chars is_lower c = true)
         ascii_lowercase.
Proof. repeat constructor. Qed.

Lemma join_letters (l : list string) :
  Forall (fun s => In s ascii_lowercase) l ->
  String.length (join "" l) = List.length l
  /\ all_chars is_lower (join "" l) = true.
Proof.
  unfold join. induction 1 as [|c l Hc _ [IHlen IHall]]; [now split|].
  rewrite concat_empty_cons, string_app_length, all_chars_app, IHlen, IHall.
  pose proof (proj1 (Forall_forall _ _) ascii_lowercase_letters c Hc) as [-> ->].
  now split.
Qed.

Lemma random_string_letters (length : Z) :
  always (fun s => String.length s = Z.to_nat length
                   /\ all_chars is_lower s = true)
         (random_string length).
Proof.
  unfold random_string.
  eapply always_bind; [apply choices_in; discriminate|].
  intros cs [Hlen Hall]. apply always_ret.
  destruct (join_letters cs Hall) as [Hl Ha]. rewrite Hl, Hlen. now split.
Qed.

Lemma upper_char_of_lower (c : ascii) :
  is_lower c = true -> is_upper (upper_char c) = true.
Proof.
  destruct c as [[] [] [] [] [] [] [] []]; intros H;
    first [discriminate H | reflexivity].
Qed.

Lemma upper_letters (s : string) :
  all_chars is_lower s = true ->
  String.length (upper s) = String.length s
  /\ all_chars is_upper (upper s) = true.
Proof.
  unfold upper. induction s as [|c s IH]; simpl; [now split|].
  intros H. apply andb_true_iff in H as [Hc Hs].
  destruct (IH Hs) as [-> Hall].
  now rewrite (upper_char_of_lower c Hc), Hall.
Qed.

Lemma span_class (cls : ascii -> bool) (s : string) :
  all_chars cls (fst (span cls s)) = true.
Proof.
  induction s as [|c s IH]; simpl; [reflexivity|].
  destruct (cls c) eqn:Hc; [|reflexivity].
  destruct (span cls s) as [a b]. simpl in *. now rewrite Hc, IH.
Qed.

Lemma re_match_at_class (lit : string) (cls : ascii -> bool) (s d : string) :
  re_match_at lit cls s = Some d -> all_chars cls d = true.
Proof.
  unfold re_match_at. destruct (String.prefix lit s); [|discriminate].
  pose proof (span_class cls (drop (String.length lit) s)) as Hcls.
  destruct (span cls (drop (String.length lit) s)) as [[|c a] [|e b]];
    try discriminate.
  destruct (Ascii.eqb e ")"); [|discriminate].
  intros H. injection H as <-. exact Hcls.
Qed.

Lemma re_search_class (lit : string) (cls : ascii -> bool) (s d : string) :
  re_search lit cls s = Some d -> all_chars cls d = true.
Proof.
  induction s as [|c s IH]; cbn [re_search];
    destruct (re_match_at lit cls _) eqn:Hm; intros H;
    try (injection H as <-; now apply re_match_at_class in Hm);
    [discriminate | now apply IH].
Qed.

Lemma digit_value (c : ascii) :
  is_digit c = true -> 0 <= Z.of_nat (nat_of_ascii c) - 48.
Proof.
  unfold is_digit. intros H. apply andb_true_iff in H as [H _].
  apply Nat.leb_le in H. lia.
Qed.

Lemma int_from_nonneg (d : string) :
  all_chars is_digit d = true -> forall acc, 0 <= acc -> 0 <= int_from acc d.
Proof.
  induction d as [|c d IH]; cbn [int_from all_chars]; intros H acc Hacc;
    [exact Hacc|].
  apply andb_true_iff in H as [Hc Hd].
  apply IH; [exact Hd|]. pose proof (digit_value c Hc). lia.
Qed.

Lemma int_of_str_nonneg (d : string) :
  all_chars is_digit d = true -> 0 <= int_of_str d.
Proof. intros H. apply int_from_nonneg; [exact H | lia]. Qed.

Lemma name_and_type_rules_text now col_name col_type row_id :
  reaches_char_rules col_name col_type = true ->
  name_and_type_rules now col_name col_type row_id
  = text_and_char_rules (lower col_name) (lower col_type).
Proof.
  intros Hreach. unfold reaches_char_rules in Hreach. cbv zeta in Hreach.
  repeat (let H' := fresh "Htext" in apply andb_true_iff in Hreach as [Hreach H']).
  unfold reaches_enum_rule in Hreach. split_conditions Hreach.
  unfold name_and_type_rules. cbv zeta. skip_rules.
  destruct (contains "enum" (lower col_type)); [|reflexivity].
  destruct (re_search "enum(" not_rparen (lower col_type)); [discriminate | reflexivity].
Qed.

Lemma text_and_char_rules_varchar col_lower type_lower d :
  contains "longtext" type_lower = false ->
  contains "mediumtext" type_lower = false ->
  contains "text" type_lower = false ->
  contains "varchar" type_lower = true ->
  special_name col_lower = false ->
  re_search "varchar(" is_digit type_lower = Some d ->
  text_and_char_rules col_lower type_lower
  = (k <- randint 10 50 ;;
     s <- random_string (Z.min (int_of_str d) k) ;;
     ret (VStr s)).
Proof.
  intros Hl Hm Ht Hv Hs Hd. unfold special_name in Hs.
  repeat (apply orb_false_iff in Hs as [Hs ?]).
  unfold text_and_char_rules. cbv zeta.
  rewrite Hl, Hm, Ht, Hv, Hd.
  replace (String.eqb col_lower "title" || String.eqb col_lower "slug") with false
    by (symmetry; apply orb_false_iff; auto).
  skip_rules. reflexivity.
Qed.

Lemma text_and_char_rules_char col_lower type_lower d :
  contains "longtext" type_lower = false ->
  contains "mediumtext" type_lower = false ->
  contains "text" type_lower = false ->
  contains "varchar" type_lower = false ->
  contains "char" type_lower = true ->
  re_search "char(" is_digit type_lower = Some d ->
  text_and_char_rules col_lower type_lower
  = (s <- random_string (int_of_str d) ;; ret (VStr (upper s))).
Proof.
  intros Hl Hm Ht Hv Hc Hd.
  unfold text_and_char_rules. cbv zeta.
  now rewrite Hl, Hm, Ht, Hv, Hc, Hd.
Qed.

Lemma reaches_char_rules_text col_name col_type :
  reaches_char_rules col_name col_type = true ->
  contains "longtext" (lower col_type) = false
  /\ contains "mediumtext" (lower col_type) = false
  /\ contains "text" (lower col_type) = false.
Proof.
  intros Hreach. unfold reaches_char_rules in Hreach. cbv zeta in Hreach.
  repeat (let H' := fresh "Htext" in apply andb_true_iff in Hreach as [Hreach H']).
  repeat match goal with
         | Hc : negb _ = true |- _ => apply negb_true_iff in Hc
         end.
  auto.
Qed.

(** C8, as stated, fails: the CHAR rule upper-cases its random string;
    the [currency] column of the catalogue gets three capital letters. *)
Lemma char_column_uppercase_counterexample :
  In ("currency", "char(3) DEFAULT 'USD'")
     (columns (nth 4 TABLE_DEFINITIONS (mk_table "" [] "" 0)))
  /\ special_name (lower "currency") = false
  /\ fst (generate_row_value (mk_clock 0 0) "orders" "currency"
            "char(3) DEFAULT 'USD'" 1 (const_tape 0)) = VStr "AAA"
  /\ all_chars is_lower "AAA" = false.
Proof.
  repeat split; try reflexivity.
  simpl. do 8 right. left. reflexivity.
Qed.

(** A character column claimed by an earlier rule: an email address is not
    a string of lowercase letters. *)
Example varchar_email_column :
  fst (generate_row_value (mk_clock 0 0) "users" "email" "varchar(255) NOT NULL"
         1 (const_tape 0)) = VStr "james.smith1@gmail.com"
  /\ all_chars is_lower "james.smith1@gmail.com" = false.
Proof. split; vm_compute; reflexivity. Qed.

Lemma varchar_rule_values (n : Z) :
  0 <= n ->
  always (fun v => exists s k,
            v = VStr s /\ all_chars is_lower s = true /\ 10 <= k <= 50
            /\ len s = Z.min n k /\ len s <= n)
         (k <- randint 10 50 ;;
          s <- random_string (Z.min n k) ;;
          ret (VStr s)).
Proof.
  intros Hn. eapply always_bind; [apply randint_range; lia|].
  intros k Hk. cbv beta in Hk.
  eapply always_bind; [apply random_string_letters|].
  intros s [Hlen Hlow]. apply always_ret. exists s, k.
  unfold len. rewrite Hlen. repeat split; try assumption; lia.
Qed.

Lemma char_rule_values (n : Z) :
  0 <= n ->
  always (fun v => exists s,
            v = VStr s /\ all_chars is_upper s = true /\ len s = n)
         (s <- random_string n ;; ret (VStr (upper s))).
Proof.
  intros Hn. eapply always_bind; [apply random_string_letters|].
  intros s [Hlen Hlow]. apply always_ret. exists (upper s).
  destruct (upper_letters s Hlow) as [Hl Hu].
  unfold len. rewrite Hl, Hlen. repeat split; [exact Hu | lia].
Qed.

(** C8 (amended). For every column with an ASCII name and type that no
    earlier rule claims (the rules up to the text rules), whatever the row
    number and the random draws: if its lower-cased type contains [varchar]
    with a declared length [n] and its name is not one of the specially
    formatted names, a non-null value is a string of lowercase letters of
    length [min(n, k)] for some [10 <= k <= 50], so of length at most [n]; if
    its type contains [char] but not [varchar], with a declared length [n], a
    non-null value is a string of exactly [n] upper-case letters. *)
Theorem character_column_values now table_name col_name col_type row_id g d :
  ascii_text col_name = true ->
  ascii_text col_type = true ->
  reaches_char_rules col_name col_type = true ->
  (contains "varchar" (lower col_type) = true ->
   special_name (lower col_name) = false ->
   re_search "varchar(" is_digit (lower col_type) = Some d ->
   fst (generate_row_value now table_name col_name col_type row_id g) = VNone
   \/ exists s k,
        fst (generate_row_value now table_name col_name col_type row_id g) = VStr s
        /\ all_chars is_lower s = true
        /\ 10 <= k <= 50
        /\ len s = Z.min (int_of_str d) k
        /\ len s <= int_of_str d)
  /\ (contains "varchar" (lower col_type) = false ->
      contains "char" (lower col_type) = true ->
      re_search "char(" is_digit (lower col_type) = Some d ->
      fst (generate_row_value now table_name col_name col_type row_id g) = VNone
      \/ exists s,
           fst (generate_row_value now table_name col_name col_type row_id g) = VStr s
           /\ all_chars is_upper s = true
           /\ len s = int_of_str d).
Proof.
  intros _ _ Hreach.
  destruct (reaches_char_rules_text col_name col_type Hreach) as (Hl & Hm & Ht).
  destruct (null_rule_fires col_type g) eqn:Hnull.
  - split; intros; left; now apply generate_row_value_null_rule.
  - destruct (rules_when_null_rule_silent now table_name col_name col_type row_id g Hnull)
      as [g' ->].
    rewrite name_and_type_rules_text by exact Hreach.
    split.
    + intros Hv Hs Hd. right.
      rewrite (text_and_char_rules_varchar _ _ d) by assumption.
      apply varchar_rule_values, int_of_str_nonneg.
      now apply re_search_class in Hd.
    + intros Hv Hc Hd. right.
      rewrite (text_and_char_rules_char _ _ d) by assumption.
      apply char_rule_values, int_of_str_nonneg.
      now apply re_search_class in Hd.
Qed.

Lemma character_column_values_witness :
  (fst (generate_row_value (mk_clock 0 0) "media" "disk"
          "varchar(50) DEFAULT 'public'" 1 (const_tape 0)) = VNone
   \/ exists s k,
        fst (generate_row_value (mk_clock 0 0) "media" "disk"
               "varchar(50) DEFAULT 'public'" 1 (const_tape 0)) = VStr s
        /\ all_chars is_lower s = true
        /\ 10 <= k <= 50
        /\ len s = Z.min (int_of_str "50") k
        /\ len s <= int_of_str "50")
  /\ (fst (generate_row_value (mk_clock 0 0) "orders" "currency"
             "char(3) DEFAULT 'USD'" 1 (const_tape 0)) = VNone
      \/ exists s,
           fst (generate_row_value (mk_clock 0 0) "orders" "currency"
                  "char(3) DEFAULT 'USD'" 1 (const_tape 0)) = VStr s
           /\ all_chars is_upper s = true
           /\ len s = int_of_str "3").
Proof.
  split.
  - apply (proj1 (character_column_values (mk_clock 0 0) "media" "disk"
                    "varchar(50) DEFAULT 'public'" 1 (const_tape 0) "50"
                    eq_refl eq_refl eq_refl));
      reflexivity.
  - apply (proj2 (character_column_values (mk_clock 0 0) "orders" "currency"
                    "char(3) DEFAULT 'USD'" 1 (const_tape 0) "3"
                    eq_refl eq_refl eq_refl));
      reflexivity.
Defined.

(** The hypotheses of both cases are met in the catalogue. *)
Example catalogue_character_columns :
  reaches_char_rules "disk" "varchar(50) DEFAULT 'public'" = true
  /\ contains "varchar" (lower "varchar(50) DEFAULT 'public'") = true
  /\ special_name (lower "disk") = false
  /\ re_search "varchar(" is_digit (lower "varchar(50) DEFAULT 'public'") = Some "50"
  /\ reaches_char_rules "currency" "char(3) DEFAULT 'USD'" = true
  /\ contains "varchar" (lower "char(3) DEFAULT 'USD'") = false
  /\ contains "char" (lower "char(3) DEFAULT 'USD'") = true
  /\ re_search "char(" is_digit (lower "char(3) DEFAULT 'USD'") = Some "3".
Proof. repeat split. Qed.

(** ** Instances *)

Lemma write_table_data_row_count_witness :
  exists bs g',
    write_table_data 130 (mk_clock 0 0) ""
      (nth 0 TABLE_DEFINITIONS (mk_table "" [] "" 0)) 130 (const_tape 0)
    = (Some ("" ++ data_prologue (nth 0 TABLE_DEFINITIONS (mk_table "" [] "" 0))
               ++ String.concat ""
                    (map (insert_text
                            (name (nth 0 TABLE_DEFINITIONS (mk_table "" [] "" 0)))
                            (map fst (columns (nth 0 TABLE_DEFINITIONS
                                                 (mk_table "" [] "" 0))))) bs)
               ++ data_epilogue (nth 0 TABLE_DEFINITIONS (mk_table "" [] "" 0))), g')
    /\ map (@List.length row) bs = batch_sizes 50 130
    /\ List.length (List.concat bs) = Z.to_nat 130.
Proof.
  apply (write_table_data_row_count (mk_clock 0 0) ""
           (nth 0 TABLE_DEFINITIONS (mk_table "" [] "" 0)) 130 130 (const_tape 0));
    [reflexivity | discriminate | simpl; lia].
Defined.

Lemma null_injection_witness :
  (forall g, lt_one_tenth (fst (random g)) = true ->
     generate_row_value (mk_clock 0 0) "users" "name" "varchar(100) DEFAULT NULL" 1 g
     = (VNone, snd (random g)))
  /\ (forall k, lt_one_tenth k = true <-> (Z.of_N k # 9007199254740992 < 1 # 10)%Q)
  /\ (exists g,
        fst (generate_row_value (mk_clock 0 0) "users" "name"
               "varchar(100) DEFAULT NULL" 1 g) = VNone).
Proof.
  apply (null_injection (mk_clock 0 0) "users" "name" "varchar(100) DEFAULT NULL" 1).
  reflexivity.
Defined.

Lemma foreign_key_rule_witness :
  (exists k,
     fst (generate_row_value (mk_clock 0 0) "posts" "user_id"
            "bigint unsigned NOT NULL" 9 (const_tape 3)) = VInt k
     /\ 1 <= k <= Z.max 1 (9 / 2))
  /\ contains "email" (lower "email_id") = true
  /\ (exists k,
        fst (generate_row_value (mk_clock 0 0) "posts" "email_id"
               "bigint unsigned NOT NULL" 9 (const_tape 3)) = VInt k
        /\ 1 <= k <= Z.max 1 (9 / 2)).
Proof.
  apply (foreign_key_rule (mk_clock 0 0) "posts" "user_id"
           "bigint unsigned NOT NULL" 9 (const_tape 3));
    reflexivity.
Defined.

Lemma null_only_if_default_null_witness :
  fst (generate_row_value (mk_clock 0 0) "users" "name"
         "varchar(100) DEFAULT NULL" 1 (const_tape 0)) = VNone
  /\ contains "DEFAULT NULL" "varchar(100) DEFAULT NULL" = true.
Proof.
  split; [reflexivity|].
  apply (null_only_if_default_null (mk_clock 0 0) "users" "name"
           "varchar(100) DEFAULT NULL" 1 (const_tape 0)).
  reflexivity.
Defined.

(** ** Not-null columns at the level of the emitted rows *)

(** In every row that [write_table_data] emits, a column declared without
    DEFAULT NULL holds a value that is not null. *)
Lemma emitted_rows_respect_not_null now table_def j col_name col_type n fuel g bs g' :
  0 < insert_batch_size table_def ->
  nth_error (columns table_def) j = Some (col_name, col_type) ->
  contains "DEFAULT NULL" col_type = false ->
  table_batches fuel now table_def n g = (Some bs, g') ->
  forall r, In r (List.concat bs) -> nth_error r j <> Some VNone.
Proof.
  intros Hb Hj Hnull Hrun r Hr.
  pose (P := fun (_ : Z) (r : row) => nth_error r j <> Some VNone).
  assert (Forall_from P (0 + 1) (List.concat bs)) as Hall.
  { apply (insert_loop_rows now table_def P) with (num_rows := n) (fuel := fuel)
      (g := g) (g' := g'); [|exact Hb|exact Hrun].
    intros row_id g0.
    destruct (row_values_column now (name table_def)
                (fun v => v <> VNone) col_name col_type row_id) with
      (columns := columns table_def) (j := j) (g := g0) as (v & Hv & Hne).
    - intros g1 Hnone. apply generate_row_value_null_rule in Hnone.
      unfold null_rule_fires in Hnone. now rewrite Hnull in Hnone.
    - exact Hj.
    - intros Heq. pose proof (eq_trans (eq_sym Hv) Heq) as Hs. congruence. }
  apply In_nth_error in Hr as [k Hk].
  exact (Forall_from_nth P _ _ _ _ Hall Hk).
Qed.

(** * Further properties of the script *)

(** ** [escape_sql]: fixed points, length, injectivity *)

Lemma escape_char_safe (c : ascii) :
  sql_safe c = true -> escape_char c = String c "".
Proof.
  unfold sql_safe, escape_char. intros H. apply negb_true_iff in H.
  repeat (apply orb_false_iff in H as [H ?]).
  replace (Ascii.eqb c BS) with false by congruence.
  replace (Ascii.eqb c SQ) with false by congruence.
  replace (Ascii.eqb c LF) with false by congruence.
  replace (Ascii.eqb c CR) with false by congruence.
  reflexivity.
Qed.

Lemma escape_char_length (c : ascii) :
  String.length (escape_char c) = ((if sql_safe c then 0 else 1) + 1)%nat.
Proof.
  unfold sql_safe.
  destruct (escape_char_cases c)
    as [[-> ->]|[[-> ->]|[[-> ->]|[[-> ->]|(Hb & Hq & Hl & Hr & ->)]]]];
    try reflexivity.
  now rewrite Hb, Hq, Hl, Hr.
Qed.

Lemma escape_chars_length (s : string) :
  String.length (escape_chars s)
  = (String.length s + count_chars (fun c => negb (sql_safe c)) s)%nat.
Proof.
  induction s as [|c s IH]; [reflexivity|].
  cbn [escape_chars count_chars String.length].
  rewrite string_app_length, escape_char_length, IH.
  destruct (sql_safe c); simpl; lia.
Qed.

Lemma escape_chars_safe (s : string) :
  all_chars sql_safe s = true -> escape_chars s = s.
Proof.
  induction s as [|c s IH]; [reflexivity|].
  cbn [all_chars escape_chars]. intros H. apply andb_true_iff in H as [Hc Hs].
  now rewrite (escape_char_safe c Hc), (IH Hs).
Qed.

Lemma count_unsafe_zero (s : string) :
  count_chars (fun c => negb (sql_safe c)) s = O -> all_chars sql_safe s = true.
Proof.
  induction s as [|c s IH]; [reflexivity|].
  cbn [count_chars all_chars]. destruct (sql_safe c); simpl; [exact IH | discriminate].
Qed.

(** X1. [escape_sql] returns its argument unchanged exactly when the
    argument holds no backslash, single quote, newline or carriage return. *)
Theorem escape_sql_fixed_points (s : string) :
  escape_sql (VStr s) = s <-> all_chars sql_safe s = true.
Proof.
  rewrite escape_sql_chars. split.
  - intros H. apply count_unsafe_zero.
    pose proof (escape_chars_length s) as Hlen. rewrite H in Hlen. lia.
  - apply escape_chars_safe.
Qed.

(** X2. The escaped text is as long as the input plus one character for
    each backslash, single quote, newline and carriage return in it: escaping
    never shortens a value and at most doubles its length. *)
Theorem escape_sql_length (s : string) :
  String.length (escape_sql (VStr s))
  = (String.length s + count_chars (fun c => negb (sql_safe c)) s)%nat
  /\ (String.length s <= String.length (escape_sql (VStr s))
      <= 2 * String.length s)%nat.
Proof.
  rewrite escape_sql_chars, escape_chars_length. split; [reflexivity|].
  assert (count_chars (fun c => negb (sql_safe c)) s <= String.length s)%nat;
    [|lia].
  induction s as [|c s IH]; simpl; [lia|]. destruct (sql_safe c); simpl; lia.
Qed.

Lemma escape_chars_injective (s1 : string) :
  forall s2, escape_chars s1 = escape_chars s2 -> s1 = s2.
Proof.
  induction s1 as [|c1 s1 IH]; intros [|c2 s2] H.
  - reflexivity.
  - cbn [escape_chars] in H.
    destruct (escape_char_cases c2)
      as [[_ E]|[[_ E]|[[_ E]|[[_ E]|(_ & _ & _ & _ & E)]]]];
      rewrite E in H; discriminate H.
  - cbn [escape_chars] in H.
    destruct (escape_char_cases c1)
      as [[_ E]|[[_ E]|[[_ E]|[[_ E]|(_ & _ & _ & _ & E)]]]];
      rewrite E in H; discriminate H.
  - cbn [escape_chars] in H.
    destruct (escape_char_cases c1)
      as [[-> E1]|[[-> E1]|[[-> E1]|[[-> E1]|(Hb1 & Hq1 & Hl1 & Hr1 & E1)]]]];
    destruct (escape_char_cases c2)
      as [[-> E2]|[[-> E2]|[[-> E2]|[[-> E2]|(Hb2 & Hq2 & Hl2 & Hr2 & E2)]]]];
      rewrite E1 in H; rewrite ?E2 in H; cbn [append] in H;
      try discriminate H;
      try (injection H as H; f_equal; now apply IH);
      try (injection H as Hc H; subst; discriminate).
    injection H as -> H. f_equal. now apply IH.
Qed.

(** X3. [escape_sql] loses nothing: two strings with the same escaped
    text are the same string. *)
Theorem escape_sql_injective (s1 s2 : string) :
  escape_sql (VStr s1) = escape_sql (VStr s2) -> s1 = s2.
Proof. rewrite !escape_sql_chars. apply escape_chars_injective. Qed.

Lemma escape_sql_injective_witness :
  escape_sql (VStr "it's") = escape_sql (VStr "it's") /\ "it's" = "it's".
Proof.
  split; [reflexivity|].
  apply (escape_sql_injective "it's" "it's"). reflexivity.
Defined.

(** ** What the sample generators produce needs no escaping *)

Create HintDb sql_safe.

Lemma safe_app (a b : string) : safe a -> safe b -> safe (a ++ b).
Proof. unfold safe. intros Ha Hb. now rewrite all_chars_app, Ha, Hb. Qed.

Lemma safe_cons (c : ascii) (s : string) :
  sql_safe c = true -> safe s -> safe (String c s).
Proof. unfold safe. intros Hc Hs. simpl. now rewrite Hc, Hs. Qed.

Lemma sql_safe_lower_char (c : ascii) :
  sql_safe c = true -> sql_safe (lower_char c) = true.
Proof.
  destruct c as [[] [] [] [] [] [] [] []]; intros H;
    first [discriminate H | reflexivity].
Qed.

Lemma sql_safe_upper_char (c : ascii) :
  sql_safe c = true -> sql_safe (upper_char c) = true.
Proof.
  destruct c as [[] [] [] [] [] [] [] []]; intros H;
    first [discriminate H | reflexivity].
Qed.

Lemma sql_safe_digit (c : ascii) :
  (is_digit c || Ascii.eqb c "-") = true -> sql_safe c = true.
Proof.
  destruct c as [[] [] [] [] [] [] [] []]; intros H;
    first [discriminate H | reflexivity].
Qed.

Lemma safe_map_chars (f : ascii -> ascii) (s : string) :
  (forall c, sql_safe c = true -> sql_safe (f c) = true) ->
  safe s -> safe (map_chars f s).
Proof.
  unfold safe. intros Hf. induction s as [|c s IH]; simpl; [reflexivity|].
  intros H. apply andb_true_iff in H as [Hc Hs]. now rewrite (Hf c Hc), (IH Hs).
Qed.

Lemma safe_lower (s : string) : safe s -> safe (lower s).
Proof. apply safe_map_chars, sql_safe_lower_char. Qed.

Lemma safe_upper (s : string) : safe s -> safe (upper s).
Proof. apply safe_map_chars, sql_safe_upper_char. Qed.

Lemma safe_capitalize (s : string) : safe s -> safe (capitalize s).
Proof.
  destruct s as [|c s]; [trivial|]. unfold safe. simpl.
  intros H. apply andb_true_iff in H as [Hc Hs].
  rewrite (sql_safe_upper_char c Hc). now apply safe_lower.
Qed.

Lemma safe_title_from (s : string) :
  safe s -> forall prev_cased, safe (title_from prev_cased s).
Proof.
  unfold safe. induction s as [|c s IH]; simpl; [reflexivity|].
  intros H prev. apply andb_true_iff in H as [Hc Hs].
  destruct (is_cased c); simpl; rewrite (IH Hs), ?andb_true_r.
  - destruct prev; [now apply sql_safe_lower_char | now apply sql_safe_upper_char].
  - exact Hc.
Qed.

Lemma safe_title (s : string) : safe s -> safe (title s).
Proof. intros H. now apply safe_title_from. Qed.

Lemma safe_take (n : nat) (s : string) : safe s -> safe (take n s).
Proof.
  unfold safe. revert s. induction n as [|n IH]; intros [|c s]; simpl; trivial.
  intros H. apply andb_true_iff in H as [Hc Hs]. now rewrite Hc, (IH s Hs).
Qed.

Lemma safe_join (sep : string) (parts : list string) :
  safe sep -> Forall safe parts -> safe (join sep parts).
Proof.
  intros Hsep Hall. unfold join. induction Hall as [|x l Hx Hall IH]; [reflexivity|].
  destruct l as [|y l]; [exact Hx|].
  change (String.concat sep (x :: y :: l))
    with (x ++ sep ++ String.concat sep (y :: l)).
  auto using safe_app.
Qed.

Lemma uint_digits (d : Decimal.uint) :
  all_chars is_digit (NilEmpty.string_of_uint d) = true.
Proof. induction d; simpl; auto. Qed.

Lemma nilzero_uint_digits (d : Decimal.uint) :
  all_chars is_digit (NilZero.string_of_uint d) = true.
Proof. destruct d; try reflexivity; apply (uint_digits (_ d)). Qed.

Lemma safe_str_of_int (n : Z) : safe (str_of_int n).
Proof.
  unfold safe, str_of_int, NilZero.string_of_int.
  destruct (Z.to_int n) as [d|d].
  - eapply all_chars_impl; [|apply nilzero_uint_digits].
    intros c Hc. apply sql_safe_digit. now rewrite Hc.
  - cbn [all_chars]. change (sql_safe "-") with true. cbn [andb].
    eapply all_chars_impl; [|apply nilzero_uint_digits].
    intros c Hc. apply sql_safe_digit. now rewrite Hc.
Qed.

Lemma safe_zero_pad (w : nat) (n : Z) : safe (zero_pad w n).
Proof.
  unfold zero_pad. apply safe_app; [|apply safe_str_of_int].
  induction (w - String.length (str_of_int n))%nat as [|k IH]; [reflexivity|].
  cbn [repeat]. rewrite concat_empty_cons. now apply safe_app.
Qed.

Lemma safe_strftime (d : Z * Z * Z) (secs : Z) : safe (strftime d secs).
Proof.
  destruct d as [[y m] dd]. unfold strftime.
  repeat first [apply safe_zero_pad | apply safe_app | reflexivity].
Qed.

#[local] Hint Resolve safe_app safe_lower safe_upper safe_capitalize safe_title
  safe_take safe_join safe_str_of_int safe_zero_pad safe_strftime : sql_safe.
#[local] Hint Resolve safe_cons : sql_safe.
#[local] Hint Extern 1 (safe _) => reflexivity : sql_safe.
#[local] Hint Extern 1 (sql_safe _ = true) => reflexivity : sql_safe.

Lemma forallb_safe (l : list string) :
  forallb (all_chars sql_safe) l = true -> Forall safe l.
Proof. intros H. apply Forall_forall. intros s Hs. exact (proj1 (forallb_forall _ _) H s Hs). Qed.

Lemma choice_safe (seq : list string) :
  seq <> [] -> forallb (all_chars sql_safe) seq = true -> always safe (choice seq).
Proof.
  intros Hne Hall. eapply always_weaken; [|apply choice_in, Hne].
  intros s Hs. exact (proj1 (Forall_forall _ _) (forallb_safe _ Hall) s Hs).
Qed.

Lemma choices_safe (population : list string) (k : nat) :
  population <> [] -> forallb (all_chars sql_safe) population = true ->
  always (Forall safe) (choices population k).
Proof.
  intros Hne Hall. eapply always_weaken; [|apply (choices_in population k Hne)].
  intros l [_ Hl]. eapply Forall_impl; [|exact Hl].
  intros s Hs. exact (proj1 (Forall_forall _ _) (forallb_safe _ Hall) s Hs).
Qed.

Lemma random_string_safe (length : Z) : always safe (random_string length).
Proof.
  unfold random_string.
  eapply always_bind; [apply choices_safe; [discriminate | reflexivity]|].
  intros cs Hcs. apply always_ret. auto with sql_safe.
Qed.

Lemma random_email_safe : always safe random_email.
Proof.
  unfold random_email.
  eapply always_bind; [apply choice_safe; [discriminate | reflexivity]|].
  intros first Hf.
  eapply always_bind; [apply choice_safe; [discriminate | reflexivity]|].
  intros last Hl. apply always_bind_any. intros n.
  eapply always_bind; [apply choice_safe; [discriminate | reflexivity]|].
  intros domain Hd. apply always_ret. cbv zeta. auto 10 with sql_safe.
Qed.

Lemma random_name_safe : always safe random_name.
Proof.
  unfold random_name.
  eapply always_bind; [apply choice_safe; [discriminate | reflexivity]|].
  intros first Hf.
  eapply always_bind; [apply choice_safe; [discriminate | reflexivity]|].
  intros last Hl. apply always_ret. auto with sql_safe.
Qed.

Lemma random_text_safe (min_words max_words : Z) :
  always safe (random_text min_words max_words).
Proof.
  unfold random_text. apply always_bind_any. intros count.
  eapply always_bind; [apply choices_safe; [discriminate | reflexivity]|].
  intros ws Hws. apply always_ret. auto with sql_safe.
Qed.

Lemma random_datetime_safe now : always safe (random_datetime now).
Proof.
  unfold random_datetime. cbv zeta. apply always_bind_any. intros d.
  apply always_ret. auto with sql_safe.
Qed.

Lemma random_ip_safe : always safe random_ip.
Proof.
  unfold random_ip. repeat (apply always_bind_any; intros ?).
  apply always_ret. auto 10 with sql_safe.
Qed.

Lemma safe_escape_sql (s : string) : safe s -> escape_sql (VStr s) = s.
Proof. intros H. rewrite escape_sql_chars. now apply escape_chars_safe. Qed.

(** X4. Whatever the random draws, the texts built by the six sample
    generators ([random_string], [random_email], [random_name],
    [random_text], [random_datetime], [random_ip]) hold no backslash, quote,
    newline or carriage return: [escape_sql] returns them unchanged. *)
Theorem sample_generators_need_no_escaping now length min_words max_words :
  min_words <= max_words ->
  always (fun s => escape_sql (VStr s) = s) (random_string length)
  /\ always (fun s => escape_sql (VStr s) = s) random_email
  /\ always (fun s => escape_sql (VStr s) = s) random_name
  /\ always (fun s => escape_sql (VStr s) = s) (random_text min_words max_words)
  /\ always (fun s => escape_sql (VStr s) = s) (random_datetime now)
  /\ always (fun s => escape_sql (VStr s) = s) random_ip.
Proof.
  intros _. repeat split;
    (eapply always_weaken; [exact safe_escape_sql|]);
    auto using random_string_safe, random_email_safe, random_name_safe,
      random_text_safe, random_datetime_safe, random_ip_safe.
Qed.

Lemma sample_generators_need_no_escaping_witness :
  always (fun s => escape_sql (VStr s) = s) (random_string 10)
  /\ always (fun s => escape_sql (VStr s) = s) random_email
  /\ always (fun s => escape_sql (VStr s) = s) random_name
  /\ always (fun s => escape_sql (VStr s) = s) (random_text 10 50)
  /\ always (fun s => escape_sql (VStr s) = s) (random_datetime (mk_clock 2498 0))
  /\ always (fun s => escape_sql (VStr s) = s) random_ip.
Proof.
  apply (sample_generators_need_no_escaping (mk_clock 2498 0) 10 10 50). lia.
Defined.

(** ** Escaping only matters for enum literals *)

Ltac safe_step :=
  first
    [ eapply always_bind;
      [ first [ apply random_string_safe | apply random_email_safe
              | apply random_name_safe | apply random_text_safe
              | apply random_datetime_safe | apply random_ip_safe
              | apply choice_safe; [discriminate | reflexivity]
              | apply choices_safe; [discriminate | reflexivity] ]
      | intros ? ? ]
    | apply always_bind_any; intros ? ].

Ltac safe_result :=
  repeat safe_step; apply always_ret;
  let s := fresh "s" in let H := fresh "H" in
  intros s H;
  first [ discriminate H
        | injection H as <-;
          repeat (apply safe_cons; [reflexivity|]); auto 12 with sql_safe ].

Lemma text_and_char_rules_safe (col_lower type_lower : string) :
  always (fun v => forall s, v = VStr s -> safe s)
         (text_and_char_rules col_lower type_lower).
Proof.
  unfold text_and_char_rules. cbv zeta.
  walk_rules; safe_result.
Qed.

Lemma name_and_type_rules_safe now col_name col_type row_id :
  contains "enum" (lower col_type) = false ->
  always (fun v => forall s, v = VStr s -> safe s)
         (name_and_type_rules now col_name col_type row_id).
Proof.
  intros Henum. unfold name_and_type_rules. cbv zeta. rewrite Henum.
  walk_rules; try apply text_and_char_rules_safe; safe_result.
Qed.

(** X5. For a column whose type does not mention [enum], every string
    that [generate_row_value] returns is free of backslashes, quotes,
    newlines and carriage returns, whatever the column, the row number and
    the random draws: [write_table_data] emits it between quotes exactly as
    generated.  (An enum literal is taken from the type string and may hold
    any of these characters.) *)
Theorem non_enum_values_need_no_escaping
    now table_name col_name col_type row_id g s :
  contains "enum" (lower col_type) = false ->
  fst (generate_row_value now table_name col_name col_type row_id g) = VStr s ->
  escape_sql (VStr s) = s /\ render_value (VStr s) = "'" ++ s ++ "'".
Proof.
  intros Henum Hs.
  assert (safe s) as Hsafe.
  { rewrite generate_row_value_unfold in Hs.
    destruct (contains "DEFAULT NULL" col_type);
      [destruct (lt_one_tenth (fst (random g))); [discriminate Hs|]|];
      eapply name_and_type_rules_safe; eauto. }
  unfold render_value. now rewrite safe_escape_sql.
Qed.

Lemma non_enum_values_need_no_escaping_witness :
  escape_sql (VStr "https://example.com/aaaaaaaaaa") = "https://example.com/aaaaaaaaaa"
  /\ render_value (VStr "https://example.com/aaaaaaaaaa")
     = "'" ++ "https://example.com/aaaaaaaaaa" ++ "'".
Proof.
  apply (non_enum_values_need_no_escaping (mk_clock 0 0) "users" "avatar_url"
           "varchar(500) NOT NULL" 1 (const_tape 0));
    reflexivity.
Defined.

(** An enum literal with a quote in it is the case that needs escaping. *)
Example enum_value_needs_escaping :
  fst (generate_row_value (mk_clock 0 0) "t" "kind" "enum('o'clock')" 1
         (const_tape 0)) = VStr "o'clock"
  /\ escape_sql (VStr "o'clock") = "o\'clock".
Proof. split; vm_compute; reflexivity. Qed.

(** ** Rows as they are written *)

Lemma one_line_app (a b : string) : one_line a -> one_line b -> one_line (a ++ b).
Proof. unfold one_line. intros Ha Hb. now rewrite all_chars_app, Ha, Hb. Qed.

Lemma safe_one_line (s : string) : safe s -> one_line s.
Proof.
  apply all_chars_impl. intros c H. unfold sql_safe in H. unfold raw_line_break.
  apply negb_true_iff in H. repeat (apply orb_false_iff in H as [H ?]).
  apply negb_true_iff, orb_false_iff. auto.
Qed.

Lemma safe_str_of_float (h : Z) : safe (str_of_float h).
Proof.
  unfold str_of_float. cbv zeta.
  destruct (h mod 100 mod 10 =? 0); auto 8 with sql_safe.
Qed.

Lemma render_value_one_line (v : value) : one_line (render_value v).
Proof.
  destruct v as [|n|h|s]; cbn [render_value str_of_value].
  - reflexivity.
  - apply safe_one_line, safe_str_of_int.
  - apply safe_one_line, safe_str_of_float.
  - apply (one_line_app "'"); [reflexivity|].
    apply one_line_app; [|reflexivity].
    rewrite escape_sql_chars. apply escape_chars_no_line_break.
Qed.

Lemma one_line_join (sep : string) (parts : list string) :
  one_line sep -> Forall one_line parts -> one_line (join sep parts).
Proof.
  intros Hsep Hall. unfold join. induction Hall as [|x l Hx Hall IH]; [reflexivity|].
  destruct l as [|y l]; [exact Hx|].
  change (String.concat sep (x :: y :: l))
    with (x ++ sep ++ String.concat sep (y :: l)).
  auto using one_line_app.
Qed.

(** X6. However a row is made up (nulls, numbers, strings with any
    characters), its rendering [(v1,v2,...)] holds no newline and no carriage
    return: every row of an INSERT statement stays on one line of the dump. *)
Theorem render_row_single_line (values : row) : one_line (render_row values).
Proof.
  unfold render_row. apply (one_line_app "("); [reflexivity|].
  apply one_line_app; [|reflexivity].
  apply one_line_join; [reflexivity|].
  apply Forall_map, Forall_forall. intros v _. apply render_value_one_line.
Qed.

Lemma row_values_length now name columns row_id :
  always (fun r => List.length r = List.length columns)
         (row_values now name columns row_id).
Proof.
  induction columns as [|[cn ct] rest IH]; cbn [row_values].
  - now apply always_ret.
  - apply always_bind_any. intros v. eapply always_bind; [exact IH|].
    intros vals Hvals. apply always_ret. simpl. now rewrite Hvals.
Qed.

(** X7. For a batch size of at least one and a row count [n >= 0],
    [write_table_data] ends and emits [n] rows, and every one of them, in
    every batch, has exactly one value per column of the table: each row
    matches the column list of its INSERT statement. *)
Theorem emitted_rows_match_columns now table_def n fuel g :
  0 < insert_batch_size table_def ->
  0 <= n ->
  (Z.to_nat n <= fuel)%nat ->
  exists bs g',
    table_batches fuel now table_def n g = (Some bs, g')
    /\ List.length (List.concat bs) = Z.to_nat n
    /\ forall r, In r (List.concat bs) ->
         List.length r = List.length (columns table_def).
Proof.
  intros Hb Hn Hfuel.
  destruct (table_batches_total now table_def n fuel g Hb Hn Hfuel)
    as (bs & g' & Hrun & _ & Hlen).
  exists bs, g'. split; [exact Hrun|]. split; [exact Hlen|]. intros r Hr.
  pose (P := fun (_ : Z) (r : row) => List.length r = List.length (columns table_def)).
  assert (Forall_from P (0 + 1) (List.concat bs)) as Hall.
  { apply (insert_loop_rows now table_def P) with (num_rows := n) (fuel := fuel)
      (g := g) (g' := g'); [|exact Hb|exact Hrun].
    intros row_id. apply row_values_length. }
  apply In_nth_error in Hr as [k Hk].
  exact (Forall_from_nth P _ _ _ _ Hall Hk).
Qed.

Lemma emitted_rows_match_columns_witness :
  exists bs g',
    table_batches 130 (mk_clock 0 0) (nth 0 TABLE_DEFINITIONS (mk_table "" [] "" 0))
      130 (const_tape 0) = (Some bs, g')
    /\ List.length (List.concat bs) = Z.to_nat 130
    /\ forall r, In r (List.concat bs) ->
         List.length r
         = List.length (columns (nth 0 TABLE_DEFINITIONS (mk_table "" [] "" 0))).
Proof.
  apply (emitted_rows_match_columns (mk_clock 0 0)
           (nth 0 TABLE_DEFINITIONS (mk_table "" [] "" 0)) 130 130 (const_tape 0));
    [reflexivity | lia | simpl; lia].
Defined.

(** ** Foreign keys point at rows that exist *)

Lemma fk_value_or_null now table_name col_name col_type row_id :
  endswith col_name "_id" = true ->
  always (fun v => v = VNone
                   \/ exists k, v = VInt k /\ 1 <= k <= Z.max 1 (row_id / 2))
         (generate_row_value now table_name col_name col_type row_id).
Proof.
  intros Hfk g. destruct (null_rule_fires col_type g) eqn:Hnull.
  - left. now apply generate_row_value_null_rule.
  - right. now apply fk_value_range.
Qed.

(** X8. In a table of [n] rows, the value of a column whose name ends
    with [_id] is, in the [N]-th emitted row, null or an integer [k] with
    [1 <= k <= max(1, N // 2)]: it never exceeds the number of rows [n] that
    every table of the dump gets, and from the second row on it is below the
    row's own number, so a self-reference points at an earlier row. *)
Theorem foreign_keys_reference_earlier_rows now table_def j col_name col_type n fuel g :
  0 < insert_batch_size table_def ->
  nth_error (columns table_def) j = Some (col_name, col_type) ->
  endswith col_name "_id" = true ->
  0 <= n ->
  (Z.to_nat n <= fuel)%nat ->
  exists bs g',
    table_batches fuel now table_def n g = (Some bs, g')
    /\ forall N, 1 <= N <= n ->
         exists r v,
           nth_error (List.concat bs) (Z.to_nat (N - 1)) = Some r
           /\ nth_error r j = Some v
           /\ (v = VNone
               \/ exists k, v = VInt k /\ 1 <= k <= Z.max 1 (N / 2)
                            /\ k <= n /\ (2 <= N -> k < N)).
Proof.
  intros Hb Hj Hfk Hn Hfuel.
  destruct (table_batches_total now table_def n fuel g Hb Hn Hfuel)
    as (bs & g' & Hrun & _ & Hlen).
  exists bs, g'. split; [exact Hrun|]. intros N HN.
  destruct (nth_error (List.concat bs) (Z.to_nat (N - 1))) as [r|] eqn:Hr;
    [|apply nth_error_None in Hr; lia].
  pose (P := fun (id : Z) (r : row) =>
               exists v, nth_error r j = Some v
                         /\ (v = VNone
                             \/ exists k, v = VInt k /\ 1 <= k <= Z.max 1 (id / 2))).
  assert (Forall_from P (0 + 1) (List.concat bs)) as Hall.
  { apply (insert_loop_rows now table_def P) with (num_rows := n) (fuel := fuel)
      (g := g) (g' := g'); [|exact Hb|exact Hrun].
    intros row_id.
    apply (row_values_column now (name table_def) _ col_name col_type row_id);
      [now apply fk_value_or_null | exact Hj]. }
  pose proof (Forall_from_nth P _ _ _ _ Hall Hr) as (v & Hv & Hrange).
  replace (0 + 1 + Z.of_nat (Z.to_nat (N - 1))) with N in Hrange by lia.
  exists r, v. repeat split; [exact Hv|].
  destruct Hrange as [->|(k & -> & Hk)]; [now left | right].
  exists k. split; [reflexivity|].
  assert (N / 2 <= N) by (apply Z.div_le_upper_bound; lia).
  assert (2 <= N -> N / 2 < N) by (intros; apply Z.div_lt_upper_bound; lia).
  lia.
Qed.

Lemma foreign_keys_reference_earlier_rows_witness :
  exists bs g',
    table_batches 5 (mk_clock 0 0)
      (mk_table "comments" [("id", "bigint unsigned NOT NULL AUTO_INCREMENT");
                            ("parent_id", "bigint unsigned DEFAULT NULL")] "id" 2)
      5 (const_tape 3) = (Some bs, g')
    /\ forall N, 1 <= N <= 5 ->
         exists r v,
           nth_error (List.concat bs) (Z.to_nat (N - 1)) = Some r
           /\ nth_error r 1 = Some v
           /\ (v = VNone
               \/ exists k, v = VInt k /\ 1 <= k <= Z.max 1 (N / 2)
                            /\ k <= 5 /\ (2 <= N -> k < N)).
Proof.
  apply (foreign_keys_reference_earlier_rows (mk_clock 0 0)
           (mk_table "comments" [("id", "bigint unsigned NOT NULL AUTO_INCREMENT");
                                 ("parent_id", "bigint unsigned DEFAULT NULL")] "id" 2)
           1 "parent_id" "bigint unsigned DEFAULT NULL" 5 5 (const_tape 3));
    [reflexivity | reflexivity | reflexivity | lia | simpl; lia].
Defined.

(** ** Edge cases of [write_table_data] *)

Lemma insert_loop_nothing_to_do fuel now table_def num_rows rows_written g :
  num_rows <= rows_written ->
  insert_loop fuel now table_def num_rows rows_written g = (Some [], g).
Proof.
  intros H. destruct fuel; cbn [insert_loop];
    destruct (Z.ltb_spec rows_written num_rows); (lia || reflexivity).
Qed.

(** X9. For a row count of zero or less, [write_table_data] writes the
    lock/unlock frame of the table and no INSERT statement, draws nothing
    from the random source, and does so whatever the batch size. *)
Theorem write_table_data_no_rows fuel now f table_def n g :
  n <= 0 ->
  write_table_data fuel now f table_def n g
  = (Some (f ++ data_prologue table_def ++ data_epilogue table_def), g).
Proof.
  intros Hn.
  rewrite (write_table_data_text fuel now f table_def n g [] g).
  - reflexivity.
  - unfold table_batches. now apply insert_loop_nothing_to_do.
Qed.

Lemma write_table_data_no_rows_witness :
  write_table_data 0 (mk_clock 0 0) "" (mk_table "t" [("id", "int")] "id" 0) 0
    (const_tape 0)
  = (Some ("" ++ data_prologue (mk_table "t" [("id", "int")] "id" 0)
              ++ data_epilogue (mk_table "t" [("id", "int")] "id" 0)),
     const_tape 0).
Proof.
  apply (write_table_data_no_rows 0 (mk_clock 0 0) ""
           (mk_table "t" [("id", "int")] "id" 0) 0 (const_tape 0)).
  lia.
Defined.

(** X10. With a batch size of zero or less and at least one row to write,
    the loop of [write_table_data] never ends: [rows_written] does not advance,
    so no number of rounds completes the call. *)
Theorem write_table_data_never_ends now f table_def n g :
  insert_batch_size table_def <= 0 ->
  0 < n ->
  forall fuel, fst (write_table_data fuel now f table_def n g) = None.
Proof.
  intros Hb Hn fuel. unfold write_table_data, table_batches, bind.
  pose proof (insert_loop_diverges now table_def n Hb fuel 0 g Hn) as Hloop.
  destruct (insert_loop fuel now table_def n 0 g) as [r g']. cbn [fst] in Hloop.
  now rewrite Hloop.
Qed.

Lemma write_table_data_never_ends_witness :
  fst (write_table_data 1000 (mk_clock 0 0) ""
         (mk_table "t" [("id", "int")] "id" 0) 1 (const_tape 0)) = None.
Proof.
  apply (write_table_data_never_ends (mk_clock 0 0) ""
           (mk_table "t" [("id", "int")] "id" 0) 1 (const_tape 0)).
  - simpl. lia.
  - lia.
Defined.

(** ** The layout of the whole dump *)

Lemma write_all_data_layout now (tables : list table_def) n fuel :
  Forall (fun t => 0 < insert_batch_size t) tables ->
  0 <= n ->
  (Z.to_nat n <= fuel)%nat ->
  forall f g, exists bss g',
    write_all_data fuel now tables n f g
    = (Some (f ++ String.concat ""
                    (map (fun tb => data_section (fst tb) (snd tb))
                         (combine tables bss))), g')
    /\ Forall2 (fun t bs =>
                  map (@List.length row) bs = batch_sizes (insert_batch_size t) n
                  /\ List.length (List.concat bs) = Z.to_nat n)
               tables bss.
Proof.
  intros Hall Hn Hfuel. induction Hall as [|t tables Ht _ IH]; intros f g.
  - exists [], g. simpl. rewrite string_app_nil_r. auto.
  - destruct (table_batches_total now t n fuel g Ht Hn Hfuel)
      as (bs & g1 & Hrun & Hsizes & Hlen).
    cbn [write_all_data]. unfold bind.
    rewrite (write_table_data_text _ _ f _ _ _ _ _ Hrun).
    match goal with
    | |- context [write_all_data fuel now tables n ?f1 g1] =>
        destruct (IH f1 g1) as (bss & g2 & -> & Hrest)
    end.
    exists (bs :: bss), g2. split; [|constructor; auto].
    cbn [combine map fst snd]. rewrite concat_empty_cons.
    unfold data_section. rewrite (map_ext _ _ (insert_statement_text t)).
    now rewrite !string_app_assoc.
Qed.

(** X11. With enough rounds allowed, [generate_dump] completes, and the
    file is, in this order: the header, the schema blocks of all tables, the
    data blocks of all tables in catalogue order, the footer with the time of
    the run.  The data block of a table is its prologue, its INSERT
    statements written out with their column list and rendered rows, and its
    epilogue; its INSERT statements hold [rows_per_table] rows in all, cut
    into batches of the table's own batch size. *)
Theorem generate_dump_layout now target_size_mb g :
  let n := rows_per_table (target_size_mb * 1024 * 1024) in
  exists bss g',
    generate_dump (Z.to_nat n) now target_size_mb g
    = (Some (write_header ""
             ++ schema_blocks
             ++ String.concat ""
                  (map (fun tb : table_def * list (list row) =>
                          data_prologue (fst tb)
                          ++ String.concat ""
                               (map (insert_text (name (fst tb))
                                       (map fst (columns (fst tb))))
                                    (snd tb))
                          ++ data_epilogue (fst tb))
                       (combine TABLE_DEFINITIONS bss))
             ++ write_footer now ""), g')
    /\ Forall2 (fun t bs =>
                  map (@List.length row) bs = batch_sizes (insert_batch_size t) n
                  /\ List.length (List.concat bs) = Z.to_nat n)
               TABLE_DEFINITIONS bss.
Proof.
  cbv zeta. set (n := rows_per_table (target_size_mb * 1024 * 1024)).
  assert (100 <= n) as Hn by (unfold n, rows_per_table; lia).
  unfold generate_dump. cbv zeta. fold n.
  rewrite fold_write_table_structure. fold schema_blocks.
  destruct (write_all_data_layout now TABLE_DEFINITIONS n (Z.to_nat n)
              catalogue_batch_sizes_positive ltac:(lia) (Nat.le_refl _)
              (write_header "" ++ schema_blocks) g) as (bss & g' & Hrun & Hbss).
  exists bss, g'. split; [|exact Hbss].
  unfold bind. rewrite Hrun. cbn [option_map ret].
  unfold write_footer at 1, fwrite. cbn [append].
  unfold data_section. now rewrite !string_app_assoc.
Qed.

(** ** The size controller in megabytes *)

(** X12. In terms of the size argument of the command line: a target of
    zero or fewer megabytes gives the minimum of 100 rows per table, and a
    target of [mb >= 1] megabytes gives [mb * 1048576 // 7500] rows, which is
    at least 139, so the minimum applies to non-positive targets only; the
    row count never decreases when the target grows. *)
Theorem rows_per_table_of_megabytes (mb : Z) :
  rows_per_table (mb * 1024 * 1024)
  = (if mb <=? 0 then 100 else mb * 1048576 / 7500)
  /\ (1 <= mb -> 139 <= rows_per_table (mb * 1024 * 1024))
  /\ (forall mb', mb <= mb' ->
        rows_per_table (mb * 1024 * 1024) <= rows_per_table (mb' * 1024 * 1024)).
Proof.
  unfold rows_per_table. rewrite table_count.
  change (Z.of_nat 10) with 10. rewrite !Z.div_div by lia.
  change (10 * 750) with 7500.
  split; [|split].
  - destruct (Z.leb_spec mb 0) as [Hle|Hgt].
    + assert (mb * 1024 * 1024 / 7500 <= 0)
        by (apply Z.div_le_upper_bound; lia).
      lia.
    + assert (139 <= mb * 1024 * 1024 / 7500)
        by (apply Z.div_le_lower_bound; lia).
      replace (mb * 1048576) with (mb * 1024 * 1024) by ring. lia.
  - intros Hmb.
    assert (139 <= mb * 1024 * 1024 / 7500)
      by (apply Z.div_le_lower_bound; lia).
    lia.
  - intros mb' Hle. rewrite Z.div_div by lia. change (10 * 750) with 7500.
    assert (mb * 1024 * 1024 / 7500 <= mb' * 1024 * 1024 / 7500)
      by (apply Z.div_le_mono; lia).
    lia.
Qed.

Lemma rows_per_table_of_megabytes_witness :
  rows_per_table (1 * 1024 * 1024) = 139
  /\ 139 <= rows_per_table (1 * 1024 * 1024)
  /\ rows_per_table (1 * 1024 * 1024) <= rows_per_table (2 * 1024 * 1024).
Proof.
  split; [|split].
  - apply (proj1 (rows_per_table_of_megabytes 1)).
  - apply (proj1 (proj2 (rows_per_table_of_megabytes 1))). lia.
  - apply (proj2 (proj2 (rows_per_table_of_megabytes 1)) 2). lia.
Defined.

(** ** Reading the type string back *)

Lemma int_from_uint_acc (d : Decimal.uint) :
  forall p : positive,
    int_from (Z.pos p) (NilEmpty.string_of_uint d) = Z.pos (Pos.of_uint_acc d p).
Proof.
  induction d; intros p; cbn [NilEmpty.string_of_uint int_from Pos.of_uint_acc];
    try reflexivity;
    match goal with
    | |- int_from ?acc _ = _ =>
        match goal with
        | |- _ = Z.pos (Pos.of_uint_acc _ ?q) =>
            replace acc with (Z.pos q)
              by (repeat match goal with
                         | |- context [Z.of_nat (nat_of_ascii ?c)] =>
                             let v := eval vm_compute in (Z.of_nat (nat_of_ascii c)) in
                             change (Z.of_nat (nat_of_ascii c)) with v
                         end; lia)
        end
    end; apply IHd.
Qed.

Lemma int_from_uint (d : Decimal.uint) :
  int_from 0 (NilEmpty.string_of_uint d) = Z.of_N (Pos.of_uint d).
Proof.
  induction d; cbn [NilEmpty.string_of_uint int_from Pos.of_uint];
    try reflexivity; try exact IHd;
    match goal with
    | |- int_from ?acc _ = Z.of_N (N.pos (Pos.of_uint_acc _ ?q)) =>
        change acc with (Z.pos q)
    end; apply int_from_uint_acc.
Qed.

(** [int(str(n)) == n] for a non-negative integer, and [str(n)] is a
    non-empty string of digits *)
Lemma int_of_str_of_int (n : Z) :
  0 <= n ->
  int_of_str (str_of_int n) = n
  /\ all_chars is_digit (str_of_int n) = true
  /\ str_of_int n <> "".
Proof.
  intros Hn. unfold int_of_str, str_of_int. destruct n as [|p|p]; [| |lia].
  - repeat split; discriminate.
  - cbn [Z.to_int NilZero.string_of_int].
    pose proof (DecimalPos.Unsigned.to_uint_nonnil p) as Hnil.
    assert (NilZero.string_of_uint (Pos.to_uint p)
            = NilEmpty.string_of_uint (Pos.to_uint p)) as ->
      by (destruct (Pos.to_uint p); [congruence | reflexivity ..]).
    rewrite int_from_uint, DecimalPos.Unsigned.of_to. repeat split.
    + apply uint_digits.
    + destruct (Pos.to_uint p); [congruence | discriminate ..].
Qed.

Lemma is_digit_not_rparen : is_digit ")"%char = false.
Proof. reflexivity. Qed.

(** X13. The declared length of a character type is read back exactly:
    for every [n >= 0] and whatever follows the closing parenthesis, a
    lower-cased type [varchar(n)...] yields the maximum length [n], and a type
    [char(n)...] yields the length [n]. *)
Theorem declared_length_round_trip (n : Z) (rest : string) :
  0 <= n ->
  option_map int_of_str
    (re_search "varchar(" is_digit ("varchar(" ++ str_of_int n ++ ")" ++ rest))
  = Some n
  /\ option_map int_of_str
       (re_search "char(" is_digit ("char(" ++ str_of_int n ++ ")" ++ rest))
     = Some n.
Proof.
  intros Hn. destruct (int_of_str_of_int n Hn) as (Hint & Hdigits & Hne).
  split; rewrite re_search_group by (assumption || reflexivity);
    cbn [option_map]; now rewrite Hint.
Qed.

Lemma declared_length_round_trip_witness :
  option_map int_of_str
    (re_search "varchar(" is_digit ("varchar(" ++ str_of_int 255 ++ ")" ++ " not null"))
  = Some 255
  /\ option_map int_of_str
       (re_search "char(" is_digit ("char(" ++ str_of_int 255 ++ ")" ++ " not null"))
     = Some 255.
Proof.
  apply (declared_length_round_trip 255 " not null"). lia.
Defined.

(** X14. The value list of an enum type is read back exactly: for a
    non-empty list of literals without comma, parenthesis or quote character,
    written ['v1','v2',...] between [enum(] and [)], the search finds the text
    between the parentheses and the parsing returns the literals, in order. *)
Theorem enum_list_round_trip (vs : list string) (rest : string) :
  vs <> [] ->
  Forall (fun v => plain_literal v = true) vs ->
  option_map enum_values
    (re_search "enum(" not_rparen
       ("enum(" ++ join "," (map quoted vs) ++ ")" ++ rest))
  = Some vs.
Proof.
  intros Hne Hplain.
  rewrite re_search_group.
  - cbn [option_map]. now rewrite enum_values_quoted.
  - now apply quoted_list_not_empty.
  - now apply quoted_list_no_rparen.
  - reflexivity.
Qed.

Lemma enum_list_round_trip_witness :
  option_map enum_values
    (re_search "enum(" not_rparen
       ("enum(" ++ join "," (map quoted ["pending"; "shipped"]) ++ ")"
        ++ " default 'pending'"))
  = Some ["pending"; "shipped"].
Proof.
  apply (enum_list_round_trip ["pending"; "shipped"] " default 'pending'");
    [discriminate | repeat constructor].
Defined.

(** ** Character columns: missing lengths and special names *)

Lemma take_length (n : nat) (s : string) : (String.length (take n s) <= n)%nat.
Proof.
  revert s. induction n as [|n IH]; intros [|c s]; simpl; try lia.
  specialize (IH s). lia.
Qed.

(** X15. A character type without a parenthesised length falls back to a
    default: for a column with an ASCII name and type that no earlier rule
    claims, a [varchar] type without length (and a name that is not specially
    formatted) gives a lowercase string of 10 to 50 letters (the maximum
    length defaults to 100), and a [char] type without length gives exactly
    three upper-case letters. *)
Theorem undeclared_length_defaults now table_name col_name col_type row_id g :
  ascii_text col_name = true ->
  ascii_text col_type = true ->
  reaches_char_rules col_name col_type = true ->
  (contains "varchar" (lower col_type) = true ->
   special_name (lower col_name) = false ->
   re_search "varchar(" is_digit (lower col_type) = None ->
   fst (generate_row_value now table_name col_name col_type row_id g) = VNone
   \/ exists s,
        fst (generate_row_value now table_name col_name col_type row_id g) = VStr s
        /\ all_chars is_lower s = true
        /\ 10 <= len s <= 50)
  /\ (contains "varchar" (lower col_type) = false ->
      contains "char" (lower col_type) = true ->
      re_search "char(" is_digit (lower col_type) = None ->
      fst (generate_row_value now table_name col_name col_type row_id g) = VNone
      \/ exists s,
           fst (generate_row_value now table_name col_name col_type row_id g) = VStr s
           /\ all_chars is_upper s = true
           /\ len s = 3).
Proof.
  intros _ _ Hreach.
  destruct (reaches_char_rules_text col_name col_type Hreach) as (Hl & Hm & Ht).
  destruct (null_rule_fires col_type g) eqn:Hnull.
  - split; intros; left; now apply generate_row_value_null_rule.
  - destruct (rules_when_null_rule_silent now table_name col_name col_type row_id g Hnull)
      as [g' ->].
    rewrite name_and_type_rules_text by exact Hreach.
    unfold text_and_char_rules. cbv zeta. rewrite Hl, Hm, Ht.
    split.
    + intros Hv Hs Hd. right. rewrite Hv, Hd.
      unfold special_name in Hs. repeat (apply orb_false_iff in Hs as [Hs ?]).
      replace (String.eqb (lower col_name) "title" || String.eqb (lower col_name) "slug")
        with false by (symmetry; apply orb_false_iff; auto).
      skip_rules.
      destruct (varchar_rule_values 100 ltac:(lia) g') as (s & k & Hs' & Hlow & Hk & Hlen & _).
      exists s. repeat split; [exact Hs' | exact Hlow | lia | lia].
    + intros Hv Hc Hd. right. rewrite Hv, Hc, Hd.
      exact (char_rule_values 3 ltac:(lia) g').
Qed.

Lemma undeclared_length_defaults_witness :
  (fst (generate_row_value (mk_clock 0 0) "t" "code" "varchar" 1 (const_tape 0)) = VNone
   \/ exists s,
        fst (generate_row_value (mk_clock 0 0) "t" "code" "varchar" 1 (const_tape 0))
        = VStr s
        /\ all_chars is_lower s = true
        /\ 10 <= len s <= 50)
  /\ (fst (generate_row_value (mk_clock 0 0) "t" "code" "char" 1 (const_tape 0)) = VNone
      \/ exists s,
           fst (generate_row_value (mk_clock 0 0) "t" "code" "char" 1 (const_tape 0))
           = VStr s
           /\ all_chars is_upper s = true
           /\ len s = 3).
Proof.
  split.
  - apply (proj1 (undeclared_length_defaults (mk_clock 0 0) "t" "code" "varchar" 1
                    (const_tape 0) eq_refl eq_refl eq_refl));
      reflexivity.
  - apply (proj2 (undeclared_length_defaults (mk_clock 0 0) "t" "code" "char" 1
                    (const_tape 0) eq_refl eq_refl eq_refl));
      reflexivity.
Defined.

Lemma title_rule_values (n : Z) :
  0 <= n ->
  always (fun v => exists s, v = VStr s /\ len s <= n)
         (k <- randint 3 8 ;;
          ws <- choices WORDS (Z.to_nat k) ;;
          ret (VStr (take (Z.to_nat n) (title (join " " ws))))).
Proof.
  intros Hn. apply always_bind_any. intros k. apply always_bind_any. intros ws.
  apply always_ret. eexists. split; [reflexivity|].
  unfold len. pose proof (take_length (Z.to_nat n) (title (join " " ws))). lia.
Qed.

Lemma password_rule_values :
  always (fun v => exists s, v = VStr ("$2y$10$" ++ s) /\ len ("$2y$10$" ++ s) = 57)
         (s <- random_string 50 ;; ret (VStr ("$2y$10$" ++ s))).
Proof.
  eapply always_bind; [apply random_string_letters|].
  intros s [Hlen _]. apply always_ret. exists s. split; [reflexivity|].
  unfold len. rewrite string_app_length, Hlen. reflexivity.
Qed.

(** X16. Among the specially formatted names of a [varchar(n)] column
    with an ASCII name and type that no earlier rule claims, only [title] and
    [slug] are cut to the declared length [n]; a [password_hash] value is
    always the prefix [$2y$10$] followed by 50 letters, 57 characters whatever
    the declared length. *)
Theorem special_names_and_declared_length
    now table_name col_name col_type row_id g d :
  ascii_text col_name = true ->
  ascii_text col_type = true ->
  reaches_char_rules col_name col_type = true ->
  contains "varchar" (lower col_type) = true ->
  re_search "varchar(" is_digit (lower col_type) = Some d ->
  (String.eqb (lower col_name) "title" || String.eqb (lower col_name) "slug" = true ->
   fst (generate_row_value now table_name col_name col_type row_id g) = VNone
   \/ exists s,
        fst (generate_row_value now table_name col_name col_type row_id g) = VStr s
        /\ len s <= int_of_str d)
  /\ (lower col_name = "password_hash" ->
      fst (generate_row_value now table_name col_name col_type row_id g) = VNone
      \/ exists s,
           fst (generate_row_value now table_name col_name col_type row_id g)
           = VStr ("$2y$10$" ++ s)
           /\ len ("$2y$10$" ++ s) = 57).
Proof.
  intros _ _ Hreach Hv Hd.
  destruct (reaches_char_rules_text col_name col_type Hreach) as (Hl & Hm & Ht).
  destruct (null_rule_fires col_type g) eqn:Hnull.
  - split; intros; left; now apply generate_row_value_null_rule.
  - destruct (rules_when_null_rule_silent now table_name col_name col_type row_id g Hnull)
      as [g' ->].
    rewrite name_and_type_rules_text by exact Hreach.
    unfold text_and_char_rules. cbv zeta. rewrite Hl, Hm, Ht, Hv, Hd.
    split.
    + intros Hname. right. rewrite Hname.
      apply title_rule_values, int_of_str_nonneg.
      now apply re_search_class in Hd.
    + intros Hname. right. rewrite Hname. cbn [String.eqb Ascii.eqb Bool.eqb orb].
      exact (password_rule_values g').
Qed.

Lemma special_names_and_declared_length_witness :
  (fst (generate_row_value (mk_clock 0 0) "posts" "title"
          "varchar(255) NOT NULL" 1 (const_tape 0)) = VNone
   \/ exists s,
        fst (generate_row_value (mk_clock 0 0) "posts" "title"
               "varchar(255) NOT NULL" 1 (const_tape 0)) = VStr s
        /\ len s <= int_of_str "255")
  /\ (fst (generate_row_value (mk_clock 0 0) "users" "password_hash"
             "varchar(20) NOT NULL" 1 (const_tape 0)) = VNone
      \/ exists s,
           fst (generate_row_value (mk_clock 0 0) "users" "password_hash"
                  "varchar(20) NOT NULL" 1 (const_tape 0))
           = VStr ("$2y$10$" ++ s)
           /\ len ("$2y$10$" ++ s) = 57).
Proof.
  split.
  - apply (proj1 (special_names_and_declared_length (mk_clock 0 0) "posts" "title"
                    "varchar(255) NOT NULL" 1 (const_tape 0) "255"
                    eq_refl eq_refl eq_refl eq_refl eq_refl)).
    reflexivity.
  - apply (proj2 (special_names_and_declared_length (mk_clock 0 0) "users"
                    "password_hash" "varchar(20) NOT NULL" 1 (const_tape 0) "20"
                    eq_refl eq_refl eq_refl eq_refl eq_refl)).
    reflexivity.
Defined.

(** ** Dates *)

Lemma days_in_month_bounds (y m : Z) : 28 <= days_in_month y m <= 31.
Proof.
  unfold days_in_month.
  destruct (m =? 2); [destruct (is_leap y); lia|].
  destruct ((m =? 4) || (m =? 6) || (m =? 9) || (m =? 11)); lia.
Qed.

Lemma next_day_valid (d : Z * Z * Z) :
  valid_date d = true -> valid_date (next_day d) = true.
Proof.
  destruct d as [[y m] dd]. unfold valid_date, next_day. intros H.
  repeat (apply andb_true_iff in H as [H ?]).
  repeat match goal with Hc : (_ <=? _) = true |- _ => apply Z.leb_le in Hc end.
  destruct (Z.ltb_spec dd (days_in_month y m)).
  - repeat (apply andb_true_iff; split); apply Z.leb_le; lia.
  - destruct (Z.ltb_spec m 12).
    + pose proof (days_in_month_bounds y (m + 1)).
      repeat (apply andb_true_iff; split); apply Z.leb_le; lia.
    + reflexivity.
Qed.

Lemma date_after_valid (y : Z) (n : nat) : valid_date (date_after y n) = true.
Proof.
  unfold date_after. induction n as [|n IH]; [reflexivity|].
  cbn [Nat.iter]. now apply next_day_valid.
Qed.

Lemma date_le_spec (a b : Z * Z * Z) :
  date_le a b = true <->
  (let '(y1, m1, d1) := a in
   let '(y2, m2, d2) := b in
   y1 < y2 \/ (y1 = y2 /\ (m1 < m2 \/ (m1 = m2 /\ d1 <= d2)))).
Proof.
  destruct a as [[y1 m1] d1], b as [[y2 m2] d2]. unfold date_le.
  rewrite orb_true_iff, andb_true_iff, orb_true_iff, andb_true_iff.
  rewrite !Z.ltb_lt, !Z.eqb_eq, Z.leb_le. tauto.
Qed.

Lemma date_le_next_day (d : Z * Z * Z) :
  valid_date d = true -> date_le d (next_day d) = true.
Proof.
  intros H. apply date_le_spec. destruct d as [[y m] dd].
  unfold valid_date in H. repeat (apply andb_true_iff in H as [H ?]).
  repeat match goal with Hc : (_ <=? _) = true |- _ => apply Z.leb_le in Hc end.
  unfold next_day.
  destruct (Z.ltb_spec dd (days_in_month y m)); [lia|].
  destruct (Z.ltb_spec m 12); lia.
Qed.

Lemma date_le_trans (a b c : Z * Z * Z) :
  date_le a b = true -> date_le b c = true -> date_le a c = true.
Proof.
  rewrite !date_le_spec.
  destruct a as [[y1 m1] d1], b as [[y2 m2] d2], c as [[y3 m3] d3]. lia.
Qed.

Lemma date_after_monotone (y : Z) (k n : nat) :
  (k <= n)%nat -> date_le (date_after y k) (date_after y n) = true.
Proof.
  induction 1 as [|n Hle IH].
  - apply date_le_spec. destruct (date_after y k) as [[y1 m1] d1]. lia.
  - eapply date_le_trans; [exact IH|].
    unfold date_after at 2. cbn [Nat.iter]. fold (date_after y n).
    apply date_le_next_day, date_after_valid.
Qed.

(** X17. [random_datetime] returns the timestamp, at midnight, of a
    calendar date that is not before 1 January 2020 and not after the day of
    the run. *)
Theorem random_datetime_range now :
  always (fun s => exists k,
            (k <= now_days now)%nat
            /\ s = strftime (date_after 2020 k) 0
            /\ valid_date (date_after 2020 k) = true
            /\ date_le (2020, 1, 1) (date_after 2020 k) = true
            /\ date_le (date_after 2020 k) (date_after 2020 (now_days now)) = true)
         (random_datetime now).
Proof.
  unfold random_datetime. cbv zeta.
  eapply always_bind; [apply randint_range; lia|].
  intros d Hd. cbv beta in Hd. apply always_ret.
  exists (Z.to_nat d). assert (Z.to_nat d <= now_days now)%nat as Hk by lia.
  repeat split.
  - exact Hk.
  - apply date_after_valid.
  - apply (date_after_monotone 2020 0). lia.
  - now apply date_after_monotone.
Qed.

(** ** Name rules come before type rules *)

Lemma random_ip_octets :
  always (fun s => exists a b c d,
            s = str_of_int a ++ "." ++ str_of_int b ++ "." ++ str_of_int c
                ++ "." ++ str_of_int d
            /\ 1 <= a <= 255 /\ 0 <= b <= 255 /\ 0 <= c <= 255 /\ 1 <= d <= 254)
         random_ip.
Proof.
  unfold random_ip.
  eapply always_bind; [apply randint_range; lia|]. intros a Ha.
  eapply always_bind; [apply randint_range; lia|]. intros b Hb.
  eapply always_bind; [apply randint_range; lia|]. intros c Hc.
  eapply always_bind; [apply randint_range; lia|]. intros d Hd.
  apply always_ret. exists a, b, c, d. auto.
Qed.

Lemma name_and_type_rules_ip now col_name col_type row_id :
  reaches_ip_rule col_name col_type = true ->
  name_and_type_rules now col_name col_type row_id
  = (s <- random_ip ;; ret (VStr s)).
Proof.
  intros Hreach. unfold reaches_ip_rule in Hreach. split_conditions Hreach.
  unfold name_and_type_rules. cbv zeta. skip_rules.
  match goal with H : contains "ip" _ = true |- _ => now rewrite H end.
Qed.

(** X18. A column whose lower-cased name contains the letters [ip], and
    which none of the id, foreign-key, email, name and URL rules claims, gets
    null or a dotted quad [a.b.c.d] with [1 <= a <= 255], [0 <= b, c <= 255]
    and [1 <= d <= 254], whatever its declared type: the [description] text
    columns of the catalogue are such columns. *)
Theorem ip_rule_ignores_type now table_name col_name col_type row_id g :
  reaches_ip_rule col_name col_type = true ->
  fst (generate_row_value now table_name col_name col_type row_id g) = VNone
  \/ exists a b c d,
       fst (generate_row_value now table_name col_name col_type row_id g)
       = VStr (str_of_int a ++ "." ++ str_of_int b ++ "." ++ str_of_int c
               ++ "." ++ str_of_int d)
       /\ 1 <= a <= 255 /\ 0 <= b <= 255 /\ 0 <= c <= 255 /\ 1 <= d <= 254.
Proof.
  intros Hreach.
  destruct (null_rule_fires col_type g) eqn:Hnull.
  - left. now apply generate_row_value_null_rule.
  - right.
    destruct (rules_when_null_rule_silent now table_name col_name col_type row_id g Hnull)
      as [g' ->].
    rewrite name_and_type_rules_ip by exact Hreach.
    revert g'.
    change (always (fun v => exists a b c d,
                      v = VStr (str_of_int a ++ "." ++ str_of_int b ++ "."
                                ++ str_of_int c ++ "." ++ str_of_int d)
                      /\ 1 <= a <= 255 /\ 0 <= b <= 255 /\ 0 <= c <= 255
                      /\ 1 <= d <= 254)
              (s <- random_ip ;; ret (VStr s))).
    eapply always_bind; [apply random_ip_octets|].
    intros s (a & b & c & d & -> & Hr). apply always_ret. exists a, b, c, d. auto.
Qed.

Lemma ip_rule_ignores_type_witness :
  fst (generate_row_value (mk_clock 0 0) "products" "description" "text" 1
         (const_tape 0)) = VNone
  \/ exists a b c d,
       fst (generate_row_value (mk_clock 0 0) "products" "description" "text" 1
              (const_tape 0))
       = VStr (str_of_int a ++ "." ++ str_of_int b ++ "." ++ str_of_int c
               ++ "." ++ str_of_int d)
       /\ 1 <= a <= 255 /\ 0 <= b <= 255 /\ 0 <= c <= 255 /\ 1 <= d <= 254.
Proof.
  apply (ip_rule_ignores_type (mk_clock 0 0) "products" "description" "text" 1
           (const_tape 0)).
  reflexivity.
Defined.

(** ** The shape of generated text *)

Lemma count_chars_app (p : ascii -> bool) (a b : string) :
  count_chars p (a ++ b) = (count_chars p a + count_chars p b)%nat.
Proof. induction a as [|c a IH]; simpl; [reflexivity | rewrite IH; lia]. Qed.

Lemma is_space_lower_char (c : ascii) : is_space (lower_char c) = is_space c.
Proof. destruct c as [[] [] [] [] [] [] [] []]; reflexivity. Qed.

Lemma is_space_upper_char (c : ascii) : is_space (upper_char c) = is_space c.
Proof. destruct c as [[] [] [] [] [] [] [] []]; reflexivity. Qed.

Lemma count_spaces_lower (s : string) :
  count_chars is_space (lower s) = count_chars is_space s.
Proof.
  unfold lower. induction s as [|c s IH]; simpl; [reflexivity|].
  now rewrite is_space_lower_char, IH.
Qed.

Lemma count_spaces_capitalize (s : string) :
  count_chars is_space (capitalize s) = count_chars is_space s.
Proof.
  destruct s as [|c s]; [reflexivity|]. cbn [capitalize count_chars].
  now rewrite is_space_upper_char, count_spaces_lower.
Qed.

Lemma lowercase_no_space (w : string) :
  all_chars is_lower w = true -> count_chars is_space w = O.
Proof.
  induction w as [|c w IH]; simpl; [reflexivity|].
  intros H. apply andb_true_iff in H as [Hc Hw]. rewrite (IH Hw).
  destruct c as [[] [] [] [] [] [] [] []]; first [discriminate Hc | reflexivity].
Qed.

Lemma count_spaces_join (ws : list string) :
  Forall (fun w => all_chars is_lower w = true) ws ->
  count_chars is_space (join " " ws) = Nat.pred (List.length ws).
Proof.
  unfold join. induction 1 as [|w ws Hw Hall IH]; [reflexivity|].
  destruct ws as [|w' ws].
  - simpl. now apply lowercase_no_space.
  - change (String.concat " " (w :: w' :: ws))
      with (w ++ String " " (String.concat " " (w' :: ws))).
    rewrite count_chars_app, (lowercase_no_space w Hw).
    cbn [count_chars]. rewrite IH. reflexivity.
Qed.

Lemma words_lowercase :
  forallb (fun w => all_chars is_lower w && negb (String.eqb w "")) WORDS = true.
Proof. reflexivity. Qed.

(** X19. For [1 <= min_words <= max_words], [random_text] returns a
    sentence that starts with a capital letter, ends with a full stop, and
    holds between [min_words] and [max_words] words: the number of spaces in
    it is the number of words minus one. *)
Theorem random_text_sentence (min_words max_words : Z) :
  1 <= min_words ->
  min_words <= max_words ->
  always (fun s => exists count c body,
            min_words <= count <= max_words
            /\ s = String c body ++ "."
            /\ is_upper c = true
            /\ Z.of_nat (count_chars is_space s) = count - 1)
         (random_text min_words max_words).
Proof.
  intros Hmin Hle. unfold random_text.
  eapply always_bind; [apply randint_range; lia|].
  intros count Hcount. cbv beta in Hcount.
  eapply always_bind; [apply choices_in; discriminate|].
  intros ws [Hlen Hin]. apply always_ret.
  assert (Forall (fun w => all_chars is_lower w = true /\ w <> "") ws) as Hws.
  { eapply Forall_impl; [|exact Hin]. intros w Hw.
    pose proof (proj1 (forallb_forall _ _) words_lowercase w Hw) as H.
    apply andb_true_iff in H as [Hl Hn]. split; [exact Hl|].
    apply negb_true_iff, String.eqb_neq in Hn. exact Hn. }
  assert (Forall (fun w => all_chars is_lower w = true) ws) as Hlow
    by (eapply Forall_impl; [|exact Hws]; intros w [H _]; exact H).
  destruct ws as [|w ws]; [simpl in Hlen; lia|].
  inversion Hws as [|? ? [Hw Hne] _]; subst.
  destruct w as [|c w]; [congruence|].
  exists count, (upper_char c).
  exists (lower (match ws with
                 | [] => w
                 | _ => w ++ String " " (String.concat " " ws)
                 end)).
  split; [exact Hcount|]. split; [|split].
  - unfold join. destruct ws; reflexivity.
  - cbn [all_chars] in Hw. apply andb_true_iff in Hw as [Hc _].
    now apply upper_char_of_lower.
  - rewrite count_chars_app, count_spaces_capitalize, (count_spaces_join _ Hlow).
    rewrite Hlen. cbn [count_chars]. change (is_space ".") with false.
    rewrite <- Nat.sub_1_r. lia.
Qed.

Lemma random_text_sentence_witness :
  always (fun s => exists count c body,
            20 <= count <= 100
            /\ s = String c body ++ "."
            /\ is_upper c = true
            /\ Z.of_nat (count_chars is_space s) = count - 1)
         (random_text 20 100).
Proof.
  apply (random_text_sentence 20 100); lia.
Defined.

(** X20. [random_string(length)] returns exactly [length] lowercase
    letters, and the empty string when [length] is zero or negative. *)
Theorem random_string_exact_length (length : Z) :
  always (fun s => len s = Z.max 0 length /\ all_chars is_lower s = true)
         (random_string length).
Proof.
  eapply always_weaken; [|apply random_string_letters].
  intros s [Hlen Hlow]. split; [|exact Hlow]. unfold len. rewrite Hlen. lia.
Qed.

(** ** What a schema block and an INSERT statement hold *)

Lemma contains_app_r (p a s : string) :
  contains p s = true -> contains p (a ++ s) = true.
Proof.
  intros H. induction a as [|c a IH]; [exact H|].
  cbn [append contains]. rewrite IH. apply orb_true_r.
Qed.

Lemma join_member (sep x : string) (l : list string) :
  In x l -> exists a b, join sep l = a ++ x ++ b.
Proof.
  unfold join. induction l as [|y l IH]; [intros []|].
  intros [->|Hin].
  - exists "". destruct l as [|z l].
    + exists "". simpl. now rewrite string_app_nil_r.
    + exists (sep ++ String.concat sep (z :: l)). reflexivity.
  - destruct (IH Hin) as (a & b & E). destruct l as [|z l]; [destruct Hin|].
    exists (y ++ sep ++ a), b.
    change (String.concat sep (y :: z :: l))
      with (y ++ sep ++ String.concat sep (z :: l)).
    rewrite E. now rewrite !string_app_assoc.
Qed.

Lemma contains_app_l_lines (p : string) (ls : list string) (rest : string) :
  In p ls -> contains (p ++ nl) (lines ls ++ rest) = true.
Proof.
  intros Hin. apply in_split in Hin as (before & after & ->).
  unfold lines. rewrite map_app. cbn [map].
  induction before as [|l before IH].
  - cbn [List.app map]. rewrite concat_empty_cons, (string_app_assoc (p ++ nl)).
    apply contains_here, prefix_app.
  - cbn [List.app map]. rewrite concat_empty_cons, string_app_assoc.
    now apply contains_app_r.
Qed.

(** X21. For any table definition, the schema block written by
    [write_table_structure] holds the table's DROP TABLE IF EXISTS and CREATE
    TABLE statements, a definition line for every column with its declared
    type verbatim, and the PRIMARY KEY line. *)
Theorem schema_block_lists_every_column (f : string) (t : table_def) :
  write_table_structure f t = f ++ table_structure t
  /\ contains ("DROP TABLE IF EXISTS `" ++ name t ++ "`;" ++ nl)
              (table_structure t) = true
  /\ contains ("CREATE TABLE `" ++ name t ++ "` (" ++ nl) (table_structure t) = true
  /\ (forall c, In c (columns t) ->
        contains ("  `" ++ fst c ++ "` " ++ snd c) (table_structure t) = true)
  /\ contains ("  PRIMARY KEY (`" ++ primary_key t ++ "`)") (table_structure t) = true.
Proof.
  split; [reflexivity|]. unfold table_structure. cbv zeta.
  split; [|split; [|split]].
  - replace ("DROP TABLE IF EXISTS `" ++ name t ++ "`;" ++ nl)
      with (("DROP TABLE IF EXISTS `" ++ name t ++ "`;") ++ nl)
      by (now rewrite !string_app_assoc).
    apply contains_app_l_lines. simpl. auto 8.
  - replace ("CREATE TABLE `" ++ name t ++ "` (" ++ nl)
      with (("CREATE TABLE `" ++ name t ++ "` (") ++ nl)
      by (now rewrite !string_app_assoc).
    apply contains_app_l_lines. simpl. auto 10.
  - intros c Hc. apply contains_app_r.
    destruct (join_member ("," ++ nl) ("  `" ++ fst c ++ "` " ++ snd c)
                (List.app (map (fun c => "  `" ++ fst c ++ "` " ++ snd c) (columns t))
                          ["  PRIMARY KEY (`" ++ primary_key t ++ "`)"]))
      as (a & b & ->).
    + apply in_or_app. left.
      exact (in_map (fun c => "  `" ++ fst c ++ "` " ++ snd c) _ _ Hc).
    + rewrite (string_app_assoc a). apply contains_app_r.
      rewrite (string_app_assoc _ b). apply contains_here, prefix_app.
  - apply contains_app_r.
    destruct (join_member ("," ++ nl) ("  PRIMARY KEY (`" ++ primary_key t ++ "`)")
                (List.app (map (fun c => "  `" ++ fst c ++ "` " ++ snd c) (columns t))
                          ["  PRIMARY KEY (`" ++ primary_key t ++ "`)"]))
      as (a & b & ->).
    + apply in_or_app. right. now left.
    + rewrite (string_app_assoc a). apply contains_app_r.
      rewrite (string_app_assoc _ b). apply contains_here, prefix_app.
Qed.

Lemma schema_block_lists_every_column_witness :
  contains ("  `" ++ fst ("email", "varchar(255) NOT NULL") ++ "` "
            ++ snd ("email", "varchar(255) NOT NULL"))
    (table_structure (nth 0 TABLE_DEFINITIONS (mk_table "" [] "" 0))) = true.
Proof.
  apply (proj1 (proj2 (proj2 (proj2
           (schema_block_lists_every_column ""
              (nth 0 TABLE_DEFINITIONS (mk_table "" [] "" 0))))))
           ("email", "varchar(255) NOT NULL")).
  simpl. auto.
Defined.

Lemma count_chars_join (p : ascii -> bool) (sep : string) (l : list string) :
  Forall (fun x => count_chars p x = O) l ->
  count_chars p (join sep l) = (Nat.pred (List.length l) * count_chars p sep)%nat.
Proof.
  unfold join. induction 1 as [|x l Hx Hall IH]; [reflexivity|].
  destruct l as [|y l]; [simpl; lia|].
  change (String.concat sep (x :: y :: l))
    with (x ++ sep ++ String.concat sep (y :: l)).
  rewrite !count_chars_app, Hx, IH. simpl. lia.
Qed.

Lemma one_line_no_lf (s : string) : one_line s -> count_chars is_lf s = O.
Proof.
  unfold one_line. induction s as [|c s IH]; simpl; [reflexivity|].
  intros H. apply andb_true_iff in H as [Hc Hs]. rewrite (IH Hs).
  unfold raw_line_break in Hc. apply negb_true_iff, orb_false_iff in Hc as [Hc _].
  unfold is_lf. now rewrite Hc.
Qed.

(** X22. When the table name and the column names hold no line break, an
    INSERT statement for [k >= 1] rows takes exactly [k + 1] lines of the
    dump: the line with the column list, then one line per row. *)
Theorem insert_statement_line_count (t : table_def) (rows : list row) :
  one_line (name t) ->
  Forall one_line (map fst (columns t)) ->
  rows <> [] ->
  count_chars is_lf (insert_statement t rows) = S (List.length rows).
Proof.
  intros Hname Hcols Hrows. unfold insert_statement. cbv zeta.
  rewrite !count_chars_app.
  rewrite (one_line_no_lf (name t) Hname).
  rewrite (count_chars_join is_lf "`,`" (map fst (columns t)))
    by (eapply Forall_impl; [|exact Hcols]; intros; now apply one_line_no_lf).
  rewrite (count_chars_join is_lf ("," ++ nl) (map render_row rows))
    by (apply Forall_map, Forall_forall; intros r _;
        apply one_line_no_lf, render_row_single_line).
  rewrite !length_map.
  change (count_chars is_lf "INSERT INTO `") with O.
  change (count_chars is_lf "` (`") with O.
  change (count_chars is_lf "`,`") with O.
  change (count_chars is_lf "`) VALUES") with O.
  change (count_chars is_lf nl) with 1%nat.
  change (count_chars is_lf ("," ++ nl)) with 1%nat.
  change (count_chars is_lf ";") with O.
  rewrite Nat.mul_0_r, Nat.mul_1_r.
  destruct rows; [congruence | simpl; lia].
Qed.

Lemma insert_statement_line_count_witness :
  count_chars is_lf
    (insert_statement (mk_table "t" [("id", "int"); ("note", "text")] "id" 2)
       [[VInt 1; VStr ("a" ++ nl ++ "b")]; [VInt 2; VNone]])
  = S (List.length [[VInt 1; VStr ("a" ++ nl ++ "b")]; [VInt 2; VNone]]).
Proof.
  apply (insert_statement_line_count
           (mk_table "t" [("id", "int"); ("note", "text")] "id" 2)
           [[VInt 1; VStr ("a" ++ nl ++ "b")]; [VInt 2; VNone]]);
    [reflexivity | repeat constructor | discriminate].
Defined.

(** ** The catalogue is ASCII text *)

(** Every table name, column name, type and primary key of the catalogue is
    ASCII text, on which the case mappings and the digit class of the model
    are those of Python. *)
Lemma catalogue_is_ascii :
  forallb (fun t =>
             ascii_text (name t) && ascii_text (primary_key t)
             && forallb (fun c => ascii_text (fst c) && ascii_text (snd c))
                        (columns t))
          TABLE_DEFINITIONS = true.
Proof. reflexivity. Qed.
